(** * PeruCheck: the query orchestration and normalisation engine

    A shallow embedding of [src/app/(tabs)/index.tsx]: the response
    normalisers ([parseSoat], [parseItv], [parseSunarp], [parseLicencia],
    [parseDniPeru], [parseRedam]), the owner enricher
    ([enrichSunarpWithDni]), the credit gate ([hasCredits], [guardCredits])
    and the single-query entry point ([fetchService]).

    JavaScript strings are sequences of UTF-16 code units, decoded JSON
    payloads are values of [jsval], exceptions are an explicit
    [Completion], and the asynchronous collaborators (transport, clock,
    billing ledger) are an oracle [Env] whose answers the functions
    consume while they emit a trace of [Event]s. *)

From Stdlib Require Import NArith ZArith Ascii String List Bool Lia.
From stdpp Require Import base option list gmap.
Import ListNotations.

Local Open Scope N_scope.

(** ** Strings *)

(** A JavaScript string: its UTF-16 code units. *)
Abbreviation jsstring := (list N).

(** An ASCII literal as a JavaScript string. *)
Definition str (s : string) : jsstring :=
  map N_of_ascii (list_ascii_of_string s).

Arguments str : simpl never.

Definition TAB : N := 9.
Definition LF : N := 10.
Definition CR : N := 13.

Definition inRange (lo hi c : N) : bool := (lo <=? c) && (c <=? hi).

(** [\d] *)
Definition isDigit (c : N) : bool := inRange 48 57 c.
Definition isUpperAZ (c : N) : bool := inRange 65 90 c.
Definition isLowerAZ (c : N) : bool := inRange 97 122 c.
(** [[A-Za-z0-9]] *)
Definition isAlnum (c : N) : bool := isUpperAZ c || isLowerAZ c || isDigit c.
Definition isAscii (c : N) : bool := c <? 128.

(** ECMAScript WhiteSpace and LineTerminator code units: what [trim]
    strips and what [\s] matches. *)
Definition isSpace (c : N) : bool :=
  inRange 9 13 c || (c =? 32) || (c =? 160) || (c =? 5760)
  || inRange 8192 8202 c || (c =? 8232) || (c =? 8233) || (c =? 8239)
  || (c =? 8287) || (c =? 12288) || (c =? 65279).

Definition upperAscii (c : N) : N := if isLowerAZ c then c - 32 else c.
Definition lowerAscii (c : N) : N := if isUpperAZ c then c + 32 else c.

(** The part of the JavaScript engine that is not written out here: the
    Unicode case conversions on strings that hold a code unit outside
    ASCII, and the text of the TypeError the engine raises. *)
Class Engine := {
  unicodeLower : jsstring -> jsstring;
  unicodeUpper : jsstring -> jsstring;
  typeErrorMessage : jsstring;
}.

(** [String.prototype.toLowerCase] / [toUpperCase]. *)
Definition toLowerCase `{Engine} (s : jsstring) : jsstring :=
  if forallb isAscii s then map lowerAscii s else unicodeLower s.
Definition toUpperCase `{Engine} (s : jsstring) : jsstring :=
  if forallb isAscii s then map upperAscii s else unicodeUpper s.

Definition streq (a b : jsstring) : bool := bool_decide (a = b).

(** [Boolean(s)] on a string, [Boolean(l.length)] on an array. *)
Definition nonEmpty {A} (s : list A) : bool :=
  match s with [] => false | _ => true end.

Fixpoint dropSpaces (s : jsstring) : jsstring :=
  match s with
  | c :: rest => if isSpace c then dropSpaces rest else s
  | [] => []
  end.

(** [String.prototype.trim] *)
Definition trim (s : jsstring) : jsstring :=
  rev (dropSpaces (rev (dropSpaces s))).

Fixpoint startsWith (p s : jsstring) : bool :=
  match p, s with
  | [], _ => true
  | a :: p', b :: s' => (a =? b) && startsWith p' s'
  | _ :: _, [] => false
  end.

(** [s.includes(p)] *)
Fixpoint includes (s p : jsstring) : bool :=
  startsWith p s || match s with [] => false | _ :: rest => includes rest p end.

(** Prefix test of a regular expression with the [i] flag whose pattern
    [p] is ASCII: a pattern letter matches its two ASCII cases only (a
    code unit outside ASCII never canonicalises to an ASCII one). *)
Fixpoint startsWithCI (p s : jsstring) : bool :=
  match p, s with
  | [], _ => true
  | a :: p', b :: s' => (upperAscii a =? upperAscii b) && startsWithCI p' s'
  | _ :: _, [] => false
  end.

(** [s.split(sep)] for a one-character separator. *)
Fixpoint splitChar (sep : N) (s cur : jsstring) : list jsstring :=
  match s with
  | [] => [rev cur]
  | c :: rest =>
      if c =? sep then rev cur :: splitChar sep rest []
      else splitChar sep rest (c :: cur)
  end.

(** [parts.join(sep)] on strings. *)
Fixpoint join (sep : jsstring) (parts : list jsstring) : jsstring :=
  match parts with
  | [] => []
  | [p] => p
  | p :: rest => p ++ sep ++ join sep rest
  end.

(** [s.split(/\r?\n/)] *)
Fixpoint splitLines (s cur : jsstring) : list jsstring :=
  match s with
  | [] => [rev cur]
  | c :: rest =>
      if c =? LF then rev cur :: splitLines rest []
      else
        match rest with
        | d :: rest' =>
            if (c =? CR) && (d =? LF) then rev cur :: splitLines rest' []
            else splitLines rest (c :: cur)
        | [] => splitLines rest (c :: cur)
        end
  end.

(** [s.split(/\t+/)]: [inRun] is true while inside a run of tabs. *)
Fixpoint splitTabs (s cur : jsstring) (inRun : bool) : list jsstring :=
  match s with
  | [] => [rev cur]
  | c :: rest =>
      if c =? TAB then
        if inRun then splitTabs rest cur true
        else rev cur :: splitTabs rest [] true
      else splitTabs rest (c :: cur) false
  end.

(** [l.split(/\t+/).filter(Boolean)] *)
Definition tabTokens (l : jsstring) : list jsstring :=
  filter (fun t => nonEmpty t = true) (splitTabs l [] false).

(** [raw.split(/\r?\n/).map((l) => l.trim()).filter(Boolean)] *)
Definition trimmedLines (raw : jsstring) : list jsstring :=
  filter (fun l => nonEmpty l = true) (map trim (splitLines raw [])).

(** The pattern [\d{2}\/\d{2}\/\d{4}] at the head of [s]. *)
Definition dateAtHead (s : jsstring) : bool :=
  match s with
  | d1 :: d2 :: s1 :: m1 :: m2 :: s2 :: y1 :: y2 :: y3 :: y4 :: _ =>
      isDigit d1 && isDigit d2 && (s1 =? 47) && isDigit m1 && isDigit m2
      && (s2 =? 47) && isDigit y1 && isDigit y2 && isDigit y3 && isDigit y4
  | _ => false
  end.

(** [/\d{2}\/\d{2}\/\d{4}/.test(s)] *)
Fixpoint hasDate (s : jsstring) : bool :=
  dateAtHead s || match s with [] => false | _ :: rest => hasDate rest end.

(** [s.match(/(\d{2}\/\d{2}\/\d{4})/g)]: the matches from left to right,
    none overlapping; [skip] counts the code units of the last match that
    are still to be passed. The empty list stands for the [null] of no
    match. *)
Fixpoint matchDates (s : jsstring) (skip : nat) : list jsstring :=
  match s with
  | [] => []
  | _ :: rest =>
      match skip with
      | S k => matchDates rest k
      | O => if dateAtHead s then take 10 s :: matchDates rest 9
             else matchDates rest 0
      end
  end.

(** Decimal digits of a natural number, least significant first. *)
Fixpoint digitsRev (fuel : nat) (n : N) : jsstring :=
  match fuel with
  | O => []
  | S f => (48 + n mod 10) :: (if n <? 10 then [] else digitsRev f (n / 10))
  end.

(** [`${n}`] for an integer [n]. *)
Definition decimal (z : Z) : jsstring :=
  let n := Z.abs_N z in
  let ds := rev (digitsRev (S (N.to_nat (N.log2 n))) n) in
  if (z <? 0)%Z then 45 :: ds else ds.


(** ** Decoded JSON values and JavaScript's view of them *)

(** A value of type [any]: [undefined] or a decoded JSON value. A number
    is kept as the text [Number::toString] gives for it (the program only
    tests numbers for truthiness and converts them to strings); an object
    is the list of its own properties, the first binding of a key being
    the one that counts. *)
#[local] Set Warnings "-register-all".
Inductive jsval :=
| JUndef
| JNull
| JBool (b : bool)
| JNum (repr : jsstring)
| JStr (s : jsstring)
| JArr (items : list jsval)
| JObj (props : list (jsstring * jsval)).

(** The outcome of running a piece of code: a value, or a thrown error
    with its [message] ([None] when the thrown value has none). *)
Inductive Completion (A : Type) :=
| Return (a : A)
| Throw (message : option jsstring).
Arguments Return {A} a.
Arguments Throw {A} message.

#[export] Instance completion_ret : MRet Completion := @Return.
#[export] Instance completion_bind : MBind Completion :=
  fun A B f c => match c with Return a => f a | Throw m => Throw m end.

#[export] Instance completion_fmap : FMap Completion :=
  fun A B f c => match c with Return a => Return (f a) | Throw m => Throw m end.

Definition typeError `{Engine} {A} : Completion A :=
  Throw (Some typeErrorMessage).

(** [Boolean(v)] *)
Definition truthy (v : jsval) : bool :=
  match v with
  | JUndef | JNull => false
  | JBool b => b
  | JNum repr => negb (streq repr (str "0"))
  | JStr s => nonEmpty s
  | JArr _ | JObj _ => true
  end.

(** [a || b] *)
Definition jsOr (a b : jsval) : jsval := if truthy a then a else b.
(** [a ?? b] *)
Definition nullish (v : jsval) : bool :=
  match v with JUndef | JNull => true | _ => false end.
Definition jsCoalesce (a b : jsval) : jsval := if nullish a then b else a.

Declare Scope js_scope.
Delimit Scope js_scope with js.
Infix "|||" := jsOr (at level 50, left associativity) : js_scope.
Infix "???" := jsCoalesce (at level 50, left associativity) : js_scope.

Fixpoint lookupProp (k : jsstring) (props : list (jsstring * jsval)) : jsval :=
  match props with
  | [] => JUndef
  | (k', v) :: rest => if streq k k' then v else lookupProp k rest
  end.

Definition hasProp (k : jsstring) (props : list (jsstring * jsval)) : bool :=
  existsb (fun kv => streq k (fst kv)) props.

(** [v?.k] for the property names the program reads (none of them is a
    property of a string, an array or [Object.prototype]). *)
Definition get (v : jsval) (k : string) : jsval :=
  match v with
  | JObj props => lookupProp (str k) props
  | _ => JUndef
  end.

Notation "v '?.' k" := (get v k) (at level 2, k at level 1, left associativity, format "v ?. k") : js_scope.

(** [`${v}`]: ToString. An object decoded from JSON prints as
    [[object Object]] unless it has a property [toString] of its own, which
    is never callable, so that the conversion throws; an array joins the
    texts of its items with commas, [null] and [undefined] giving empty
    text. [None] stands for the TypeError. *)
Fixpoint toStringOpt (v : jsval) : option jsstring :=
  match v with
  | JUndef => Some (str "undefined")
  | JNull => Some (str "null")
  | JBool true => Some (str "true")
  | JBool false => Some (str "false")
  | JNum repr => Some repr
  | JStr s => Some s
  | JArr items =>
      let item x :=
        match x with
        | JUndef | JNull => Some []
        | _ => toStringOpt x
        end in
      (fix go (l : list jsval) : option jsstring :=
         match l with
         | [] => Some []
         | x :: rest =>
             match rest with
             | [] => item x
             | _ => a ← item x; b ← go rest; Some (a ++ str "," ++ b)
             end
         end) items
  | JObj props =>
      if hasProp (str "toString") props then None
      else Some (str "[object Object]")
  end.

Definition toString `{Engine} (v : jsval) : Completion jsstring :=
  match toStringOpt v with
  | Some s => Return s
  | None => typeError
  end.

(** The text [Array.prototype.join] uses for one item. *)
Definition itemText `{Engine} (v : jsval) : Completion jsstring :=
  if nullish v then Return [] else toString v.

(** [items.join(sep)] on values. *)
Fixpoint joinVals `{Engine} (sep : jsstring) (items : list jsval)
  : Completion jsstring :=
  match items with
  | [] => Return []
  | x :: rest =>
      a ← itemText x;
      match rest with
      | [] => Return a
      | _ => b ← joinVals sep rest; Return (a ++ sep ++ b)
      end
  end.

(** [items.filter(Boolean).join(' ').trim()] *)
Definition joinTruthy `{Engine} (items : list jsval) : Completion jsstring :=
  s ← joinVals (str " ") (filter (fun v => truthy v = true) items);
  Return (trim s).

(** [`${v}`.trim()] *)
Definition trimmedText `{Engine} (v : jsval) : Completion jsstring :=
  s ← toString v; Return (trim s).

(** [s || undefined] on a string. *)
Definition orUndefined (s : jsstring) : option jsstring :=
  if nonEmpty s then Some s else None.

(** ** Response normalisers *)

Fixpoint findIndex {A} (p : A -> bool) (l : list A) : option nat :=
  match l with
  | [] => None
  | x :: rest => if p x then Some O else S <$> findIndex p rest
  end.

Fixpoint takeWhile {A} (p : A -> bool) (l : list A) : list A :=
  match l with
  | x :: rest => if p x then x :: takeWhile p rest else []
  | [] => []
  end.

(** Truthiness of a [string | undefined]. *)
Definition present (o : option jsstring) : bool :=
  match o with Some s => nonEmpty s | None => false end.

(** [a || b] on [string | undefined]. *)
Definition orOpt (a b : option jsstring) : option jsstring :=
  if present a then a else b.

(** [a ?? b] on [string | undefined]. *)
Definition coalesceOpt (a b : option jsstring) : option jsstring :=
  match a with Some _ => a | None => b end.

(** The lines of the raw text; [raw.split] throws when the raw text is
    not a string. *)
Definition rawLines `{Engine} (raw : jsval) : Completion (list jsstring) :=
  match raw with
  | JStr s => Return (trimmedLines s)
  | _ => typeError
  end.

(** *** Insurance coverage (SOAT) *)

Record SoatData := {
  soat_aseguradora : jsstring;
  soat_clase : jsstring;
  soat_uso : jsstring;
  soat_accidentes : jsstring;
  soat_poliza : jsstring;
  soat_certificado : jsstring;
  soat_inicio : jsstring;
  soat_fin : jsstring;
  soat_infoActualizada : option jsstring;
}.

(** The text ['información actualizada']. *)
Definition INFO_ACTUALIZADA : jsstring :=
  str "informaci" ++ [243] ++ str "n actualizada".
(** The text ['compañía aseguradora']. *)
Definition COMPANIA_ASEGURADORA : jsstring :=
  str "compa" ++ [241; 237] ++ str "a aseguradora".

(** [l.split(/\t+/).filter(Boolean).length >= n] *)
Definition hasColumns (n : nat) (l : jsstring) : bool :=
  (n <=? length (tabTokens l))%nat.

Definition soatInfoActualizada `{Engine} (lines : list jsstring)
  : option jsstring :=
  match findIndex (fun l => includes (toLowerCase l) INFO_ACTUALIZADA) lines with
  | Some infoIdx =>
      match lines !! infoIdx with
      | Some l => orUndefined (trim (join (str ":") (tail (splitChar 58 l []))))
      | None => None
      end
  | None => None
  end.

Definition soatRow `{Engine} (lines : list jsstring) : option jsstring :=
  let row :=
    match findIndex (fun l => includes (toLowerCase l) COMPANIA_ASEGURADORA) lines with
    | Some headerIdx => find (hasColumns 5) (drop (S headerIdx) lines)
    | None => None
    end in
  if present row then row else find (hasColumns 5) lines.

Definition parseSoat `{Engine} (raw : jsval) : Completion (option SoatData) :=
  lines ← rawLines raw;
  let infoActualizada := soatInfoActualizada lines in
  let row := soatRow lines in
  match row with
  | Some r =>
      if negb (nonEmpty r) then Return None
      else
        match tabTokens r with
        | aseguradora :: clase :: uso :: accidentes :: poliza :: certificado
            :: inicio :: fin :: _ =>
            Return (Some {| soat_aseguradora := aseguradora; soat_clase := clase;
                            soat_uso := uso; soat_accidentes := accidentes;
                            soat_poliza := poliza; soat_certificado := certificado;
                            soat_inicio := inicio; soat_fin := fin;
                            soat_infoActualizada := infoActualizada |})
        | _ => Return None
        end
  | None => Return None
  end.

(** *** Technical inspection (ITV) *)

Record ItvData := {
  itv_inicio : option jsstring;
  itv_fin : option jsstring;
  itv_estado : option jsstring;
  itv_vigencia : option jsstring;
  itv_centro : option jsstring;
}.

Definition notCommaLF (c : N) : bool := negb ((c =? 44) || (c =? LF)).

(** [/CENTRO DE INSPECC?ION[^,\n]+/i] at the head of [s]: the matched
    text. *)
Definition centroAtHead (s : jsstring) : option jsstring :=
  if startsWithCI (str "CENTRO DE INSPEC") s then
    let n :=
      if startsWithCI (str "CION") (drop 16 s) then Some 20%nat
      else if startsWithCI (str "ION") (drop 16 s) then Some 19%nat
      else None in
    match n with
    | Some n =>
        match takeWhile notCommaLF (drop n s) with
        | [] => None
        | rest => Some (take n s ++ rest)
        end
    | None => None
    end
  else None.

(** [raw.match(/CENTRO DE INSPECC?ION[^,\n]+/i)]: the leftmost match. *)
Fixpoint centroMatch (s : jsstring) : option jsstring :=
  match centroAtHead s with
  | Some m => Some m
  | None => match s with [] => None | _ :: rest => centroMatch rest end
  end.

(** The row [parseItv] reads: the first line holding the plate of the
    payload, or, without a plate, the first line holding a date. *)
Definition itvRow (lines : list jsstring) (plateUpper : jsstring)
  : option jsstring :=
  find (fun l => if nonEmpty plateUpper then includes l plateUpper else hasDate l)
       lines.

(** [tokens]: the columns of the row, none without a row. *)
Definition itvTokens (row : option jsstring) : list jsstring :=
  match row with
  | Some r => if nonEmpty r then tabTokens r else []
  | None => []
  end.

(** [tokens[5] ?? tokens[4]] *)
Definition itvEstado (tokens : list jsstring) : option jsstring :=
  coalesceOpt (tokens !! 5%nat) (tokens !! 4%nat).

(** The status inferred from the flag [vigente] of the payload, the
    textual status without a flag. *)
Definition itvVigencia (full : jsval) (estado : option jsstring)
  : option jsstring :=
  match (full?."vigente")%js with
  | JBool true => Some (str "Vigente")
  | JBool false => Some (str "Vencido")
  | _ => estado
  end.

(** [(full?.placa ?? '').toUpperCase()] *)
Definition itvPlateUpper `{Engine} (full : jsval) : Completion jsstring :=
  match ((full?."placa") ??? JStr [])%js with
  | JStr s => Return (toUpperCase s)
  | _ => typeError
  end.

Definition parseItv `{Engine} (raw full : jsval) : Completion (option ItvData) :=
  lines ← rawLines raw;
  plateUpper ← itvPlateUpper full;
  let text := match raw with JStr s => s | _ => [] end in
  let tokens := itvTokens (itvRow lines plateUpper) in
  let inicio := tokens !! 2%nat in
  let fin := tokens !! 3%nat in
  let estado := itvEstado tokens in
  let dates := matchDates text 0 in
  let fallbackInicio := if (2 <=? length dates)%nat then dates !! 0%nat else None in
  let fallbackFin := if (2 <=? length dates)%nat then dates !! 1%nat else None in
  let centro := centroMatch text in
  let vigencia := itvVigencia full estado in
  if negb (present inicio || present fin || present fallbackInicio
           || present fallbackFin || present estado || present vigencia
           || bool_decide (is_Some centro))
  then Return None
  else Return (Some {| itv_inicio := orOpt inicio fallbackInicio;
                       itv_fin := orOpt fin fallbackFin;
                       itv_estado := orOpt estado vigencia;
                       itv_vigencia := vigencia;
                       itv_centro := centro |}).

(** *** National identity (DNI) *)

Record DniData := {
  dni_nombres : jsval;
  dni_apellidoPaterno : jsval;
  dni_apellidoMaterno : jsval;
  dni_codigoVerificacion : jsval;
  dni_direccion : jsval;
}.

(** [full?.datos || full] *)
Definition datosOf (full : jsval) : jsval := ((full?."datos") ||| full)%js.

Definition parseDniPeru (raw full : jsval) : DniData :=
  let datos := datosOf full in
  {| dni_nombres := (datos?."nombres" ||| datos?."nombre_completo" ||| JStr [])%js;
     dni_apellidoPaterno := (datos?."apellido_paterno" ||| JStr [])%js;
     dni_apellidoMaterno := (datos?."apellido_materno" ||| JStr [])%js;
     dni_codigoVerificacion := (datos?."codigo_verificacion" ||| JStr [])%js;
     dni_direccion := (datos?."direccion" ||| JStr [])%js |}.

(** *** Vehicle registry ownership (SUNARP) *)

(** [reniec]: the identity record, with the [dni] it was fetched for when
    a name could be composed. *)
Record ReniecData := {
  reniec_identity : DniData;
  reniec_dni : option jsstring;
}.

Record SunarpOwner := {
  owner_nombre : jsval;
  owner_documento : option jsstring;
  owner_porcentaje : option jsval;
  owner_condicion : option jsval;
  owner_reniec : option ReniecData;
}.

Record SunarpData := {
  sunarp_propietarios : list SunarpOwner;
  sunarp_coincidencias : list SunarpOwner;
  sunarp_dniPropietario : option jsstring;
  sunarp_propietarioUsado : option jsstring;
  sunarp_placa : jsval;
  sunarp_vin : jsval;
  sunarp_partida : jsval;
  sunarp_oficina : jsval;
  sunarp_captchaDetectado : jsval;
  sunarp_captchaValido : bool;
  sunarp_imagenResultado : jsval;
}.

(** [{ nombre }] *)
Definition ownerNamed (nombre : jsval) : SunarpOwner :=
  {| owner_nombre := nombre; owner_documento := None;
     owner_porcentaje := None; owner_condicion := None;
     owner_reniec := None |}.

(** [items.forEach] with a body that pushes at most one element and may
    throw. *)
Fixpoint forEachPush {A B} (body : A -> Completion (option B)) (items : list A)
  : Completion (list B) :=
  match items with
  | [] => Return []
  | x :: rest =>
      pushed ← body x;
      more ← forEachPush body rest;
      Return (match pushed with Some b => b :: more | None => more end)
  end.

(** The body of [propietariosRaw.forEach]. *)
Definition ownerOfRaw `{Engine} (p : jsval) : Completion (option SunarpOwner) :=
  let nombre :=
    (p?."nombre" ||| p?."nombres" ||| p?."propietario" ||| p?."razon_social"
     ||| JStr [])%js in
  documento ← trimmedText
    (p?."documento" ||| p?."dni" ||| p?."ruc" ||| p?."doc" ||| JStr [])%js;
  let porcentaje := (p?."porcentaje" ||| p?."participacion" ||| JStr [])%js in
  let condicion := (p?."condicion" ||| p?."calidad" ||| JStr [])%js in
  if truthy nombre || nonEmpty documento then
    Return (Some {| owner_nombre := (nombre ||| JStr (str "Propietario"))%js;
                    owner_documento := Some documento;
                    owner_porcentaje := Some porcentaje;
                    owner_condicion := Some condicion;
                    owner_reniec := None |})
  else Return None.

(** The body of [propietariosDetalle.forEach]. *)
Definition ownerOfDetalle `{Engine} (p : jsval) : Completion (option SunarpOwner) :=
  let texto := (p?."texto" ||| JStr [])%js in
  partes ← joinTruthy [p?."ap_paterno"; p?."ap_materno"; p?."nombres"]%js;
  let nombre := (JStr partes ||| texto)%js in
  if truthy nombre then
    documento ← trimmedText (p?."documento" ||| JStr [])%js;
    Return (Some {| owner_nombre := nombre;
                    owner_documento := orUndefined documento;
                    owner_porcentaje := None;
                    owner_condicion := Some (p?."condicion" ||| JStr [])%js;
                    owner_reniec := None |})
  else Return None.

(** [{ nombre: nombre || 'Coincidencia', documento }] when either is
    there. *)
Definition coincidenciaOf (nombre documento : jsstring) : option SunarpOwner :=
  if nonEmpty nombre || nonEmpty documento then
    Some {| owner_nombre := (JStr nombre ||| JStr (str "Coincidencia"))%js;
            owner_documento := Some documento;
            owner_porcentaje := None; owner_condicion := None;
            owner_reniec := None |}
  else None.

(** The body of [coincidenciasRaw.forEach]. *)
Definition coincidenciaOfRaw `{Engine} (c : jsval)
  : Completion (option SunarpOwner) :=
  nombre ← joinTruthy
    [c?."nombres"; c?."ap_paterno"; c?."ap_materno"; c?."texto"]%js;
  documento ← trimmedText (c?."dni" ||| c?."documento" ||| JStr [])%js;
  Return (coincidenciaOf nombre documento).

(** The body of [busquedaResultados.forEach]. *)
Definition coincidenciaOfBusqueda `{Engine} (c : jsval)
  : Completion (option SunarpOwner) :=
  nombre ← joinTruthy [c?."nombres"; c?."ap_paterno"; c?."ap_materno"]%js;
  documento ← trimmedText (c?."dni" ||| JStr [])%js;
  Return (coincidenciaOf nombre documento).

(** [/propietario/i.test(l)] *)
Fixpoint mentionsPropietario (l : jsstring) : bool :=
  startsWithCI (str "propietario") l
  || match l with [] => false | _ :: rest => mentionsPropietario rest end.

(** [linea.replace(/propietario:?\s*/i, '')] *)
Fixpoint removePropietario (linea : jsstring) : jsstring :=
  match linea with
  | [] => []
  | c :: rest =>
      if startsWithCI (str "propietario") linea then
        dropSpaces (match drop 11 linea with
                    | 58 :: after => after
                    | after => after
                    end)
      else c :: removePropietario rest
  end.

(** The owners read from the raw text when the payload gave none. *)
Definition ownersOfText `{Engine} (raw : jsval) : Completion (list SunarpOwner) :=
  match raw with
  | JStr s =>
      let posiblesLineas :=
        filter (fun l => mentionsPropietario l = true) (map trim (splitLines s [])) in
      Return (omap (fun linea =>
                      let limpio := trim (removePropietario linea) in
                      if nonEmpty limpio then Some (ownerNamed (JStr limpio))
                      else None)
                   (take 3 posiblesLineas))
  | _ => typeError
  end.

Definition parseSunarp `{Engine} (raw full : jsval)
  : Completion (option SunarpData) :=
  let datos := datosOf full in
  let propietariosRaw :=
    (datos?."propietarios" ||| datos?."titulares" ||| datos?."propietario"
     ||| datos?."titular" ||| JArr [])%js in
  let propietariosDetalle :=
    (datos?."propietarios_detalle" ||| datos?."propietariosDetalles"
     ||| JArr [])%js in
  let coincidenciasRaw :=
    (datos?."dni_propietario_coincidentes" ||| datos?."propietarios_coincidentes"
     ||| JArr [])%js in
  let busquedaResultados :=
    (datos?."dni_propietario_buscar"?."resultados" ||| JArr [])%js in
  fromRaw ← match propietariosRaw with
            | JArr items => forEachPush ownerOfRaw items
            | JStr s =>
                if nonEmpty (trim s) then Return [ownerNamed (JStr (trim s))]
                else Return []
            | _ => Return []
            end;
  fromDetalle ← match propietariosDetalle with
                | JArr items => forEachPush ownerOfDetalle items
                | _ => Return []
                end;
  fromCoincidencias ← match coincidenciasRaw with
                      | JArr items => forEachPush coincidenciaOfRaw items
                      | _ => Return []
                      end;
  fromBusqueda ← match busquedaResultados with
                 | JArr items => forEachPush coincidenciaOfBusqueda items
                 | _ => Return []
                 end;
  let coincidencias : list SunarpOwner := fromCoincidencias ++ fromBusqueda in
  propietarios ← match (fromRaw ++ fromDetalle : list SunarpOwner) with
                 | [] => ownersOfText raw
                 | found => Return found
                 end;
  let placa := (datos?."placa" ||| datos?."placa_rodaje" ||| JStr [])%js in
  let vin :=
    (datos?."vin" ||| datos?."vin_vehicular" ||| datos?."numero_vin"
     ||| JStr [])%js in
  let partida := (datos?."partida" ||| datos?."nro_partida" ||| JStr [])%js in
  let oficina :=
    (datos?."oficina" ||| datos?."zona" ||| datos?."zona_registral"
     ||| JStr [])%js in
  dniPropietario ← trimmedText (datos?."dni_propietario" ||| JStr [])%js;
  propietarioUsado ←
    (let usado := (datos?."propietario_usado_para_dni")%js in
     if truthy usado then
       Some <$> joinTruthy [usado?."nombres"; usado?."ap_paterno";
                            usado?."ap_materno"]%js
     else Return None);
  let captchaDetectado :=
    (datos?."captcha_detectado" ||| full?."captcha_detectado")%js in
  let captchaValido :=
    (datos?."captcha_valido" ??? full?."captcha_valido")%js in
  let imagenResultado :=
    (datos?."imagen_resultado_src" ||| full?."imagen_resultado_src"
     ||| JStr [])%js in
  if negb (nonEmpty propietarios) && negb (nonEmpty coincidencias)
     && negb (truthy (placa ||| vin ||| partida ||| oficina)%js)
  then Return None
  else Return (Some {|
    sunarp_propietarios := propietarios;
    sunarp_coincidencias := coincidencias;
    sunarp_dniPropietario := orUndefined dniPropietario;
    sunarp_propietarioUsado := propietarioUsado;
    sunarp_placa := placa; sunarp_vin := vin;
    sunarp_partida := partida; sunarp_oficina := oficina;
    sunarp_captchaDetectado := captchaDetectado;
    sunarp_captchaValido :=
      match captchaValido with
      | JBool true => true
      | JStr s => streq s (str "true")
      | _ => false
      end;
    sunarp_imagenResultado := imagenResultado |}).

(** *** Driver licence *)

Record LicenciaData := {
  lic_numero : jsval;
  lic_clase : jsval;
  lic_restricciones : jsval;
  lic_estado : jsval;
  lic_vencimiento : jsval;
  lic_nombres : jsval;
  lic_puntosFirmes : jsval;
  lic_infracciones : jsval;
  lic_graves : jsval;
  lic_muyGraves : jsval;
  lic_tramites : jsval;
  lic_bonificaciones : jsval;
}.

Definition parseLicencia (raw full : jsval) : LicenciaData :=
  let datos := datosOf full in
  let resumen := (full?."resumen" ||| JObj [])%js in
  let tramites := (full?."tabla_tramites" ||| JArr [])%js in
  let bonificaciones := (full?."tabla_bonificacion" ||| JArr [])%js in
  {| lic_numero := (datos?."licencia" ||| datos?."numero" ||| JStr [])%js;
     lic_clase := (datos?."clase" ||| datos?."categoria" ||| JStr [])%js;
     lic_restricciones :=
       (datos?."restricciones" ||| resumen?."restricciones" ||| JStr [])%js;
     lic_estado := (datos?."estado" ||| resumen?."estado_licencia" ||| JStr [])%js;
     lic_vencimiento :=
       (datos?."fecha_revalidacion" ||| datos?."vencimiento"
        ||| resumen?."vigente_hasta" ||| resumen?."vencimiento" ||| JStr [])%js;
     lic_nombres :=
       (datos?."nombres" ||| datos?."nombre_completo" ||| resumen?."administrado"
        ||| JStr [])%js;
     lic_puntosFirmes :=
       (resumen?."puntos_firmes" ||| resumen?."puntosFirmes" ||| JStr [])%js;
     lic_infracciones :=
       (resumen?."infracciones_acumuladas" ||| resumen?."infracciones"
        ||| JStr [])%js;
     lic_graves := (resumen?."graves" ||| JStr [])%js;
     lic_muyGraves := (resumen?."muy_graves" ||| JStr [])%js;
     lic_tramites := tramites;
     lic_bonificaciones := bonificaciones |}.

(** *** Debt registry (REDAM) *)

Record RedamData := {
  redam_total : nat;
  redam_detalle : list jsval;
}.

Definition parseRedam (raw full : jsval) : RedamData :=
  let datos := datosOf full in
  let items := (datos?."registros" ||| JArr [])%js in
  {| redam_total := match items with JArr l => length l | _ => 0%nat end;
     redam_detalle := match items with JArr l => take 3 l | _ => [] end |}.

(** ** Service registry *)

(** What a service stores as [parsed]: [null], or the record of the
    normaliser of the service. *)
Inductive Parsed :=
| PNull
| PSoat (d : SoatData)
| PItv (d : ItvData)
| PSunarp (d : SunarpData)
| PLicencia (d : LicenciaData)
| PDniPeru (d : DniData)
| PRedam (d : RedamData).

Definition nullable {A} (wrap : A -> Parsed) (o : option A) : Parsed :=
  match o with Some a => wrap a | None => PNull end.

Inductive Field := Placa | Dni.
Inductive Scope := Vehiculo | Persona.

Record ServiceConfig := {
  endpoint : jsstring;
  parser : option (jsval -> jsval -> Completion Parsed);
  field : Field;
  scope : Scope;
}.

Definition mkConfig (path : string)
    (p : option (jsval -> jsval -> Completion Parsed)) (f : Field) (s : Scope)
  : ServiceConfig :=
  {| endpoint := str "http://localhost:8000/" ++ str path;
     parser := p; field := f; scope := s |}.

Definition serviceTable `{Engine} : list (jsstring * ServiceConfig) :=
  [ (str "soat",
      mkConfig "consulta-soat"
        (Some (fun raw _ => nullable PSoat <$> parseSoat raw)) Placa Vehiculo);
    (str "itv",
      mkConfig "consulta-itv"
        (Some (fun raw full => nullable PItv <$> parseItv raw full)) Placa Vehiculo);
    (str "satlima", mkConfig "consulta-sat" None Placa Vehiculo);
    (str "satcallao", mkConfig "consulta-sat-callao" None Placa Vehiculo);
    (str "sutran", mkConfig "consulta-sutran" None Placa Vehiculo);
    (str "sunarp",
      mkConfig "consulta-vehicular"
        (Some (fun raw full => nullable PSunarp <$> parseSunarp raw full))
        Placa Vehiculo);
    (str "licencia",
      mkConfig "consulta-licencia-dni"
        (Some (fun raw full => Return (PLicencia (parseLicencia raw full))))
        Dni Persona);
    (str "dniperu",
      mkConfig "consulta-dni-peru"
        (Some (fun raw full => Return (PDniPeru (parseDniPeru raw full))))
        Dni Persona);
    (str "redam",
      mkConfig "consulta-redam-dni"
        (Some (fun raw full => Return (PRedam (parseRedam raw full))))
        Dni Persona) ].

(** [serviceConfigs[key]] for the keys of the table. *)
Definition serviceConfigs `{Engine} (key : jsstring) : option ServiceConfig :=
  snd <$> find (fun kc => streq key (fst kc)) serviceTable.

(** [config.parser ? config.parser(raw, data) : null] *)
Definition runParser (config : ServiceConfig) (raw full : jsval)
  : Completion Parsed :=
  match parser config with
  | Some parse => parse raw full
  | None => Return PNull
  end.

Definition fieldName (f : Field) : jsstring :=
  match f with Placa => str "placa" | Dni => str "dni" end.

(** ** The transport collaborator *)

(** [POST endpoint] with the body [{ [field]: value }]. *)
Record Request := {
  req_endpoint : jsstring;
  req_field : jsstring;
  req_value : jsstring;
}.

(** How a promise settles; a rejection carries the [message] of its
    reason, if it has one. *)
Inductive Settled (A : Type) :=
| Resolved (a : A)
| Rejected (message : option jsstring).
Arguments Resolved {A} a.
Arguments Rejected {A} message.

(** What [fetch] gives: a rejection, or a response with its status and
    what [res.text()] and [res.json()] settle to. *)
Inductive Response :=
| NetworkFailure (message : option jsstring)
| Http (status : Z) (text : Settled jsstring) (json : Settled jsval).

(** The value a promise resolved to. *)
Definition is_resolved {A} (p : Settled A) : option A :=
  match p with Resolved a => Some a | Rejected _ => None end.

(** [res.ok] *)
Definition ok (status : Z) : bool := ((200 <=? status) && (status <=? 299))%Z.

(** [await p] inside a [try]. *)
Definition await {A} (p : Settled A) : Completion A :=
  match p with Resolved a => Return a | Rejected m => Throw m end.

(** ** Cross-source enricher *)

(** [value.replace(/\D/g, '').slice(0, 8)] *)
Definition formatDni (value : jsstring) : jsstring :=
  take 8 (filter (fun c => isDigit c = true) value).

(** The [try] block of the enricher for one owner: [dni] is the document
    the lookup was issued for, [res] what the fetch gave. *)
Definition enrichTry `{Engine} (prop : SunarpOwner) (dni : jsstring)
    (res : Response) : Completion SunarpOwner :=
  match res with
  | NetworkFailure m => Throw m
  | Http status _ json =>
      if negb (ok status) then Throw (Some (str "Error " ++ decimal status))
      else
        data ← await json;
        let parsedDni :=
          parseDniPeru ((data?."resultado_crudo") ??? JStr [])%js data in
        nombres ← toString (dni_nombres parsedDni ??? JStr [])%js;
        paterno ← toString (dni_apellidoPaterno parsedDni ??? JStr [])%js;
        materno ← toString (dni_apellidoMaterno parsedDni ??? JStr [])%js;
        let nombreDni :=
          trim (nombres ++ str " " ++ paterno ++ str " " ++ materno) in
        if nonEmpty nombreDni then
          Return {| owner_nombre := (owner_nombre prop ||| JStr nombreDni)%js;
                    owner_documento := owner_documento prop;
                    owner_porcentaje := owner_porcentaje prop;
                    owner_condicion := owner_condicion prop;
                    owner_reniec :=
                      Some {| reniec_identity := parsedDni;
                              reniec_dni := Some dni |} |}
        else
          Return {| owner_nombre := owner_nombre prop;
                    owner_documento := owner_documento prop;
                    owner_porcentaje := owner_porcentaje prop;
                    owner_condicion := owner_condicion prop;
                    owner_reniec :=
                      Some {| reniec_identity := parsedDni;
                              reniec_dni := None |} |}
  end.

(** The document the enricher looks up for an owner, when it is usable:
    [formatDni(prop.documento ?? '')] with its 8 digits. *)
Definition usableDni (prop : SunarpOwner) : option jsstring :=
  let dni := formatDni (default [] (owner_documento prop)) in
  if negb (nonEmpty dni) || (length dni <? 8)%nat then None else Some dni.

(** [fetch(config.endpoint, { method: 'POST', ..., body:
    JSON.stringify({ [config.field]: value }) })]: the request. *)
Definition requestOf (config : ServiceConfig) (value : jsstring) : Request :=
  {| req_endpoint := endpoint config;
     req_field := fieldName (field config);
     req_value := value |}.

(** The callback of [parsed.propietarios.map]: the owner it settles to,
    with the lookup it issued. [res] is what the transport answers to
    that lookup. *)
Definition enrichOwner `{Engine} (dniConfig : ServiceConfig) (res : Response)
    (prop : SunarpOwner) : SunarpOwner * list Request :=
  match usableDni prop with
  | None => (prop, [])
  | Some dni =>
      (match enrichTry prop dni res with
       | Return enriched => enriched
       | Throw _ => prop
       end,
       [requestOf dniConfig dni])
  end.

(** [Promise.all(parsed.propietarios.map(...))]: the owners in their
    order, and the lookups in the order they were issued. The transport
    answers the lookup of the owner at index [i] with [lookups i]. *)
Fixpoint enrichOwners `{Engine} (dniConfig : ServiceConfig)
    (lookups : nat -> Response) (i : nat) (props : list SunarpOwner)
  : list SunarpOwner * list Request :=
  match props with
  | [] => ([], [])
  | prop :: rest =>
      let '(owner, sent) := enrichOwner dniConfig (lookups i) prop in
      let '(owners, sentRest) := enrichOwners dniConfig lookups (S i) rest in
      (owner :: owners, sent ++ sentRest)
  end.

Definition withPropietarios (parsed : SunarpData) (owners : list SunarpOwner)
  : SunarpData :=
  {| sunarp_propietarios := owners;
     sunarp_coincidencias := sunarp_coincidencias parsed;
     sunarp_dniPropietario := sunarp_dniPropietario parsed;
     sunarp_propietarioUsado := sunarp_propietarioUsado parsed;
     sunarp_placa := sunarp_placa parsed; sunarp_vin := sunarp_vin parsed;
     sunarp_partida := sunarp_partida parsed;
     sunarp_oficina := sunarp_oficina parsed;
     sunarp_captchaDetectado := sunarp_captchaDetectado parsed;
     sunarp_captchaValido := sunarp_captchaValido parsed;
     sunarp_imagenResultado := sunarp_imagenResultado parsed |}.

Definition enrichSunarpWithDni `{Engine} (lookups : nat -> Response)
    (parsed : option SunarpData) : option SunarpData * list Request :=
  match parsed with
  | None => (parsed, [])
  | Some d =>
      if negb (nonEmpty (sunarp_propietarios d)) then (parsed, [])
      else
        match serviceConfigs (str "dniperu") with
        | None => (parsed, [])
        | Some dniConfig =>
            if negb (nonEmpty (endpoint dniConfig)) then (parsed, [])
            else
              let '(owners, sent) :=
                enrichOwners dniConfig lookups 0 (sunarp_propietarios d) in
              (Some (withPropietarios d owners), sent)
        end
  end.

(** ** Query cache and state store *)

Record ServiceState := {
  loading : bool;
  error : option jsstring;
  data : jsval;
  parsed : option Parsed;
  query : option jsstring;
  fetchedAt : option Z;
}.

(** [Partial<ServiceState>]: the fields an update names. *)
Record PartialState := {
  set_loading : option bool;
  set_error : option (option jsstring);
  set_data : option jsval;
  set_parsed : option Parsed;
  set_query : option jsstring;
  set_fetchedAt : option Z;
}.

(** [{ loading: false, data: null, error: null }] *)
Definition emptyState : ServiceState :=
  {| loading := false; error := None; data := JNull; parsed := None;
     query := None; fetchedAt := None |}.

(** [{ ...state, ...partial }] *)
Definition merge (state : ServiceState) (partial : PartialState) : ServiceState :=
  {| loading := default (loading state) (set_loading partial);
     error := default (error state) (set_error partial);
     data := default (data state) (set_data partial);
     parsed := match set_parsed partial with
               | Some p => Some p
               | None => parsed state
               end;
     query := match set_query partial with
              | Some q => Some q
              | None => query state
              end;
     fetchedAt := match set_fetchedAt partial with
                  | Some t => Some t
                  | None => fetchedAt state
                  end |}.

(** The initial state of the screen: every service of the table with
    [{ loading: false, data: null, error: null }]. *)
Definition initialServiceState `{Engine} : gmap jsstring ServiceState :=
  foldl (fun acc key => <[key := emptyState]> acc) ∅ (map fst serviceTable).

(** The update [setService(key, partial)] applies to the latest state. *)
Definition setService (key : jsstring) (partial : PartialState)
    (prev : gmap jsstring ServiceState) : gmap jsstring ServiceState :=
  <[key := merge (default emptyState (prev !! key)) partial]> prev.

(** ** Credit gate *)

(** Modelled from the spec: the type [UsageSnapshot] of [@/lib/billing],
    [{creditsRemaining: int?, plan, validUntil?}], a [creditsRemaining] of
    [null] meaning unmetered. *)
Record UsageSnapshot := {
  creditsRemaining : option Z;
  plan : option jsstring;
  validUntil : option jsstring;
}.

Definition hasCredits (usage : option UsageSnapshot) : bool :=
  match usage with
  | None => true
  | Some u =>
      match creditsRemaining u with
      | None => true
      | Some credits => (0 <? credits)%Z
      end
  end.

(** ** Orchestrator *)

(** The argument of [registerConsulta]. *)
Record LedgerEntry := {
  userId : jsstring;
  serviceKey : jsstring;
  entry_placa : option jsstring;
  entry_dni : option jsstring;
  payload : jsstring * jsstring;
  respuesta : jsval;
  resumen : jsstring;
  success : bool;
  errorCode : option jsstring;
  durationMs : Z;
  rawPath : jsstring;
}.

(** What a call does to the world around it, in order. *)
Inductive Event :=
| Alert (title message : jsstring)
| SetService (key : jsstring) (partial : PartialState)
| Haptic
| Fetch (req : Request)
| RegisterConsulta (entry : LedgerEntry)
| SetUsageLoading (value : bool)
| GetUsageSnapshot (user : jsstring)
| SetUsage (snapshot : UsageSnapshot).

(** The values of one render of the screen, which the callbacks close
    over. *)
Record Screen := {
  plateInput : jsstring;
  personaDoc : jsstring;
  serviceState : gmap jsstring ServiceState;
  usage : option UsageSnapshot;
  sessionUserId : option jsstring;
}.

(** The React state the updates act on. *)
Record Store := {
  st_serviceState : gmap jsstring ServiceState;
  st_usage : option UsageSnapshot;
  st_usageLoading : bool;
}.

Definition applyEvent (st : Store) (e : Event) : Store :=
  match e with
  | SetService key partial =>
      {| st_serviceState := setService key partial (st_serviceState st);
         st_usage := st_usage st; st_usageLoading := st_usageLoading st |}
  | SetUsage snapshot =>
      {| st_serviceState := st_serviceState st;
         st_usage := Some snapshot; st_usageLoading := st_usageLoading st |}
  | SetUsageLoading value =>
      {| st_serviceState := st_serviceState st;
         st_usage := st_usage st; st_usageLoading := value |}
  | _ => st
  end.

(** The store after the updates of a trace. *)
Definition runTrace (st : Store) (trace : list Event) : Store :=
  foldl applyEvent st trace.

(** The answers of the collaborators to one call of [fetchService]: the
    readings of [Date.now()], what the transport gives for the query and
    for the lookup of each owner, and how the two calls into
    [@/lib/billing] settle. *)
Record Env := {
  startedAt : Z;
  settledAt : Z;
  loggedAt : Z;
  respond : Request -> Response;
  lookups : nat -> Response;
  registerConsulta : LedgerEntry -> Settled unit;
  getUsageSnapshot : jsstring -> Settled UsageSnapshot;
}.

(** How an asynchronous function ends, with what it did. *)
Record Outcome := {
  trace : list Event;
  rejected : bool;
}.

Definition done (events : list Event) : Outcome :=
  {| trace := events; rejected := false |}.

(** [formatPlate] *)
Definition formatPlate `{Engine} (value : jsstring) : jsstring :=
  let clean := take 6 (toUpperCase (filter (fun c => isAlnum c = true) value)) in
  let part1 := take 3 clean in
  let part2 := take 3 (drop 3 clean) in
  part1 ++ (if (3 <? length clean)%nat then str "-" else []) ++ part2.

Definition formattedPlate `{Engine} (scr : Screen) : jsstring :=
  formatPlate (plateInput scr).

(** [s.replace('-', '')] *)
Fixpoint removeDash (s : jsstring) : jsstring :=
  match s with
  | [] => []
  | c :: rest => if c =? 45 then rest else c :: removeDash rest
  end.

(** [session?.user?.id], when truthy. *)
Definition sessionUser (scr : Screen) : option jsstring :=
  match sessionUserId scr with
  | Some id => if nonEmpty id then Some id else None
  | None => None
  end.

Definition SIN_CREDITOS : Event :=
  Alert (str "Sin cr" ++ [233] ++ str "ditos")
        (str "Se agotaron las consultas de tu plan. Compra un paquete para seguir consultando.").

Definition guardCredits (scr : Screen) : bool * list Event :=
  if hasCredits (usage scr) then (true, []) else (false, [SIN_CREDITOS]).

Definition refreshUsage (scr : Screen) (env : Env) : Outcome :=
  match sessionUser scr with
  | None => done []
  | Some id =>
      match getUsageSnapshot env id with
      | Resolved snapshot =>
          done [SetUsageLoading true; GetUsageSnapshot id; SetUsage snapshot;
                SetUsageLoading false]
      | Rejected _ =>
          {| trace := [SetUsageLoading true; GetUsageSnapshot id;
                       SetUsageLoading false];
             rejected := true |}
      end
  end.

(** The alert of a query value that is too short. *)
Definition INCOMPLETO (f : Field) : Event :=
  match f with
  | Placa => Alert (str "Placa incompleta") (str "Completa la placa para consultar.")
  | Dni => Alert (str "DNI incompleto")
                 (str "Ingresa los 8 d" ++ [237] ++ str "gitos del DNI.")
  end.

Definition minLength (f : Field) : nat :=
  match f with Placa => 6%nat | Dni => 8%nat end.

(** [value ?? (config.field === 'placa' ? formattedPlate.replace('-', '')
    : formatDni(personaDoc))] *)
Definition queryValueOf `{Engine} (scr : Screen) (config : ServiceConfig)
    (value : option jsstring) : jsstring :=
  match value with
  | Some v => v
  | None =>
      match field config with
      | Placa => removeDash (formattedPlate scr)
      | Dni => formatDni (personaDoc scr)
      end
  end.

(** The test that rejects a query value. *)
Definition tooShort (config : ServiceConfig) (queryValue : jsstring) : bool :=
  negb (nonEmpty queryValue)
  || (length queryValue <? minLength (field config))%nat.

(** [opts?.force], when truthy. *)
Definition forced (opts : option (option bool)) : bool :=
  match opts with Some (Some true) => true | _ => false end.

(** The test of the cache: the state holds data for this query value. *)
Definition cacheHit (current : option ServiceState) (queryValue : jsstring)
  : bool :=
  match current with
  | Some c =>
      bool_decide (query c = Some queryValue) && truthy (data c)
      && negb (present (error c)) && negb (loading c)
  | None => false
  end.

(** [current?.loading] *)
Definition inFlight (current : option ServiceState) : bool :=
  match current with Some c => loading c | None => false end.

(** What the [try] block reached: the decoded response (still [null] when
    the failure came before it), and either the normalised record or the
    error. *)
Record Attempt := {
  att_data : jsval;
  att_result : Completion Parsed;
  att_sent : list Request;
}.

(** [enrichSunarpWithDni(parsed)] on what the normaliser gave. *)
Definition enrichParsed `{Engine} (env : Env) (p : Parsed)
  : Parsed * list Request :=
  match p with
  | PSunarp d =>
      let '(enriched, sent) := enrichSunarpWithDni (lookups env) (Some d) in
      (nullable PSunarp enriched, sent)
  | _ => (p, [])
  end.

(** The [try] block of [fetchService] after the [fetch]. *)
Definition attempt `{Engine} (env : Env) (key : jsstring)
    (config : ServiceConfig) (res : Response) : Attempt :=
  let failed data m :=
    {| att_data := data; att_result := Throw m; att_sent := [] |} in
  match res with
  | NetworkFailure m => failed JNull m
  | Http status text json =>
      if negb (ok status) then
        match text with
        | Resolved t =>
            failed JNull
              (Some (str "Error " ++ decimal status ++ str ": "
                     ++ (if nonEmpty t then t else str "sin detalle")))
        | Rejected m => failed JNull m
        end
      else
        match json with
        | Rejected m => failed JNull m
        | Resolved data =>
            match runParser config ((data?."resultado_crudo") ??? JStr [])%js data with
            | Throw m => failed data m
            | Return p =>
                let '(p', sent) :=
                  if streq key (str "sunarp") then enrichParsed env p
                  else (p, []) in
                {| att_data := data; att_result := Return p'; att_sent := sent |}
            end
        end
  end.

(** The update that settles the state. *)
Definition settle (env : Env) (queryValue : jsstring) (a : Attempt)
  : PartialState :=
  match att_result a with
  | Return p =>
      {| set_loading := Some false; set_data := Some (att_data a);
         set_parsed := Some p; set_error := Some None;
         set_query := Some queryValue; set_fetchedAt := Some (settledAt env) |}
  | Throw m =>
      {| set_loading := Some false; set_data := Some JNull;
         set_parsed := Some PNull;
         set_error := Some (Some (default (str "Error consultando") m));
         set_query := Some queryValue; set_fetchedAt := Some (settledAt env) |}
  end.

(** The entry the [finally] block writes. *)
Definition ledgerEntry `{Engine} (scr : Screen) (env : Env) (user key : jsstring)
    (config : ServiceConfig) (queryValue : jsstring) (a : Attempt)
  : LedgerEntry :=
  let success := match att_result a with Return _ => true | Throw _ => false end in
  {| userId := user;
     serviceKey := key;
     entry_placa := match field config with Placa => Some queryValue | Dni => None end;
     entry_dni := match field config with Dni => Some queryValue | Placa => None end;
     payload := (fieldName (field config), queryValue);
     respuesta := att_data a;
     resumen :=
       match field config with
       | Placa => toUpperCase key ++ str " " ++ formattedPlate scr
       | Dni => toUpperCase key ++ str " " ++ queryValue
       end;
     success := success;
     errorCode :=
       match att_result a with
       | Return _ => None
       | Throw m => Some (default (str "Error consultando") m)
       end;
     durationMs := (loggedAt env - startedAt env)%Z;
     rawPath := endpoint config |}.

(** The [finally] block of [fetchService]. *)
Definition logAttempt `{Engine} (scr : Screen) (env : Env) (key : jsstring)
    (config : ServiceConfig) (queryValue : jsstring) (a : Attempt) : Outcome :=
  match sessionUser scr with
  | None => done []
  | Some user =>
      let entry := ledgerEntry scr env user key config queryValue a in
      match registerConsulta env entry with
      | Rejected _ => {| trace := [RegisterConsulta entry]; rejected := true |}
      | Resolved _ =>
          let refreshed := refreshUsage scr env in
          {| trace := RegisterConsulta entry :: trace refreshed;
             rejected := rejected refreshed |}
      end
  end.

Definition fetchService `{Engine} (scr : Screen) (env : Env) (key : jsstring)
    (value : option jsstring) (opts : option (option bool)) : Outcome :=
  match serviceConfigs key with
  | None => done []
  | Some config =>
      let '(allowed, alerts) := guardCredits scr in
      if negb allowed then done alerts
      else
        let queryValue := queryValueOf scr config value in
        if tooShort config queryValue then done [INCOMPLETO (field config)]
        else
          let current := serviceState scr !! key in
          if negb (forced opts) && cacheHit current queryValue then done []
          else if inFlight current then done []
          else
            let request := requestOf config queryValue in
            let a := attempt env key config (respond env request) in
            let logged := logAttempt scr env key config queryValue a in
            {| trace :=
                 [SetService key
                    {| set_loading := Some true; set_error := Some None;
                       set_query := Some queryValue; set_data := None;
                       set_parsed := None; set_fetchedAt := None |};
                  Haptic; Fetch request]
                 ++ map Fetch (att_sent a)
                 ++ [SetService key (settle env queryValue a)]
                 ++ trace logged;
               rejected := rejected logged |}
  end.

(** The transport calls of a trace. *)
Definition transportCalls (events : list Event) : list Request :=
  omap (fun e => match e with Fetch r => Some r | _ => None end) events.

(** The ledger writes of a trace. *)
Definition ledgerWrites (events : list Event) : list LedgerEntry :=
  omap (fun e => match e with RegisterConsulta l => Some l | _ => None end) events.

(** The state updates of a trace. *)
Definition stateUpdates (events : list Event) : list (jsstring * PartialState) :=
  omap (fun e => match e with SetService k p => Some (k, p) | _ => None end) events.

(** The shape the specification asks of a query value, "plate: 6
    alphanumeric after dash-stripping; national id: exactly 8 digits". *)
Definition wellShaped (f : Field) (queryValue : jsstring) : Prop :=
  match f with
  | Placa => length queryValue = 6%nat ∧ Forall (λ c, isAlnum c = true) queryValue
  | Dni => length queryValue = 8%nat ∧ Forall (λ c, isDigit c = true) queryValue
  end.

(** The screen with another usage snapshot. *)
Definition withUsage (scr : Screen) (u : option UsageSnapshot) : Screen :=
  {| plateInput := plateInput scr; personaDoc := personaDoc scr;
     serviceState := serviceState scr; usage := u;
     sessionUserId := sessionUserId scr |}.

(** The records the person normalisers give for a payload without
    fields. *)
Definition emptyLicencia : LicenciaData :=
  {| lic_numero := JStr []; lic_clase := JStr []; lic_restricciones := JStr [];
     lic_estado := JStr []; lic_vencimiento := JStr []; lic_nombres := JStr [];
     lic_puntosFirmes := JStr []; lic_infracciones := JStr [];
     lic_graves := JStr []; lic_muyGraves := JStr [];
     lic_tramites := JArr []; lic_bonificaciones := JArr [] |}.

Definition emptyDni : DniData :=
  {| dni_nombres := JStr []; dni_apellidoPaterno := JStr [];
     dni_apellidoMaterno := JStr []; dni_codigoVerificacion := JStr [];
     dni_direccion := JStr [] |}.

Definition emptyRedam : RedamData :=
  {| redam_total := 0; redam_detalle := [] |}.

(** A field that holds a value taken from the payload, or else its
    default [d]. *)
Definition defaulted (d v : jsval) : Prop := truthy v = true ∨ v = d.

(** An identity lookup that fails: the fetch rejects, the status is not
    a success, or the body does not decode. *)
Definition lookupFails (res : Response) : Prop :=
  match res with
  | NetworkFailure _ => True
  | Http status _ json => ok status = false ∨ is_resolved json = None
  end.

(** ** Sample inputs *)

(** An engine to evaluate the functions on ASCII inputs, where the
    Unicode conversions are not reached. *)
Definition asciiEngine : Engine :=
  {| unicodeLower := map lowerAscii;
     unicodeUpper := map upperAscii;
     typeErrorMessage := str "TypeError" |}.

(** A transport that answers every call with a network failure, a clock
    that stands still, a ledger that accepts every entry. *)
Definition offlineEnv : Env :=
  {| startedAt := 0; settledAt := 0; loggedAt := 0;
     respond := fun _ => NetworkFailure (Some (str "Network request failed"));
     lookups := fun _ => NetworkFailure (Some (str "Network request failed"));
     registerConsulta := fun _ => Resolved tt;
     getUsageSnapshot := fun _ =>
       Resolved {| creditsRemaining := None; plan := None; validUntil := None |} |}.

(** A settled-success state for the query value [q]. *)
Definition settledSuccess (q : jsstring) : ServiceState :=
  {| loading := false; error := None; data := JObj [(str "ok", JBool true)];
     parsed := Some PNull; query := Some q; fetchedAt := Some 1%Z |}.

(** The screen of a signed-in user with the plate [ABC-123] typed in. *)
Definition sampleScreen (states : gmap jsstring ServiceState)
    (credits : option UsageSnapshot) (user : option jsstring) : Screen :=
  {| plateInput := str "ABC-123"; personaDoc := str "12345678";
     serviceState := states; usage := credits; sessionUserId := user |}.

Definition credits (n : Z) : UsageSnapshot :=
  {| creditsRemaining := Some n; plan := None; validUntil := None |}.

Definition userOne : option jsstring := Some (str "user-1").

(** The SOAT service holds a settled-success result for [ABC123]. *)
Definition cachedScreen : Screen :=
  sampleScreen
    (<[str "soat" := settledSuccess (str "ABC123")]>
       (@initialServiceState asciiEngine))
    None userOne.

(** A call for the SOAT service is in flight. *)
Definition loadingScreen : Screen :=
  sampleScreen
    (<[str "soat" :=
         {| loading := true; error := None; data := JNull; parsed := None;
            query := Some (str "ABC123"); fetchedAt := None |}]>
       (@initialServiceState asciiEngine))
    None userOne.

(** The quota is exhausted. *)
Definition exhaustedScreen : Screen :=
  sampleScreen
    (<[str "soat" := settledSuccess (str "ABC123")]>
       (@initialServiceState asciiEngine))
    (Some (credits 0)) userOne.

(** Nobody is signed in. *)
Definition anonymousScreen : Screen :=
  sampleScreen (@initialServiceState asciiEngine) None None.

(** A signed-in user, nothing fetched yet. *)
Definition freshScreen : Screen :=
  sampleScreen (@initialServiceState asciiEngine) None userOne.

(** The quota is exhausted and the plate typed in is incomplete. *)
Definition exhaustedShortScreen : Screen :=
  {| plateInput := str "AB-1"; personaDoc := str "1234";
     serviceState := @initialServiceState asciiEngine;
     usage := Some (credits 0); sessionUserId := userOne |}.

(** The plate typed in is incomplete. *)
Definition shortScreen : Screen :=
  {| plateInput := str "AB-1"; personaDoc := str "1234";
     serviceState := @initialServiceState asciiEngine;
     usage := None; sessionUserId := userOne |}.

Definition forceTrue : option (option bool) := Some (Some true).
Definition forceFalse : option (option bool) := Some (Some false).

(** An insurance row of seven columns. *)
Definition soatSevenColumns : jsstring :=
  str "RIMAC" ++ [TAB] ++ str "AUTO" ++ [TAB] ++ str "PARTICULAR" ++ [TAB]
  ++ str "0" ++ [TAB] ++ str "P-1" ++ [TAB] ++ str "C-1" ++ [TAB]
  ++ str "01/01/2024".

(** An ownership payload that only carries the document searched for. *)
Definition sunarpOnlyDni : jsval :=
  JObj [(str "dni_propietario", JStr (str "12345678"))].

(** An inspection text with two dates and no row for the plate. *)
Definition itvScenario : jsstring :=
  str "Certificado vigente desde 10/01/2024 hasta 10/01/2025".

Definition itvPayload : jsval :=
  JObj [(str "placa", JStr (str "abc123")); (str "vigente", JBool true)].

(** Three owners; the identity lookup of the second one fails. *)
Definition ownerWith (nombre doc : string) : SunarpOwner :=
  {| owner_nombre := JStr (str nombre); owner_documento := Some (str doc);
     owner_porcentaje := Some (JStr (str "50")); owner_condicion := Some (JStr []);
     owner_reniec := None |}.

Definition threeOwners : SunarpData :=
  {| sunarp_propietarios :=
       [ownerWith "Ana Lopez" "12345678"; ownerWith "Luis Diaz" "23456789";
        ownerWith "Rosa Cruz" "34567890"];
     sunarp_coincidencias := []; sunarp_dniPropietario := None;
     sunarp_propietarioUsado := None; sunarp_placa := JStr (str "ABC123");
     sunarp_vin := JStr []; sunarp_partida := JStr []; sunarp_oficina := JStr [];
     sunarp_captchaDetectado := JUndef; sunarp_captchaValido := false;
     sunarp_imagenResultado := JStr [] |}.

Definition identityAnswer : Response :=
  Http 200 (Resolved [])
    (Resolved (JObj [(str "nombres", JStr (str "Ana"));
                     (str "apellido_paterno", JStr (str "Lopez"))])).

Definition secondFails (i : nat) : Response :=
  match i with
  | 1%nat => NetworkFailure (Some (str "Network request failed"))
  | _ => identityAnswer
  end.

(** [fetchAllVehicleServices]: one forced [fetchService] per vehicle
    service, in the order of the table. The calls run concurrently, all
    reading the values of the same render; [envs] gives the answers of the
    collaborators to the call of each service, and the result lists what
    each call did. *)
Definition fetchAllVehicleServices `{Engine} (scr : Screen)
    (envs : jsstring -> Env) : list (jsstring * Outcome) :=
  map (fun k =>
         (k, fetchService scr (envs k) k (Some (removeDash (formattedPlate scr)))
               (Some (Some true))))
      (filter (fun k => match scope <$> serviceConfigs k with
                        | Some Vehiculo => true
                        | _ => false
                        end = true)
              (map fst serviceTable)).

(** Every endpoint answers 200 with an empty raw text, except the one of
    SUTRAN, which answers 500. *)
Definition sutranDown : Env :=
  {| startedAt := 10; settledAt := 25; loggedAt := 30;
     respond := fun req =>
       if includes (req_endpoint req) (str "consulta-sutran")
       then Http 500 (Resolved (str "Internal Server Error")) (Rejected None)
       else Http 200 (Resolved [])
                 (Resolved (JObj [(str "resultado_crudo", JStr [])]));
     lookups := fun _ => NetworkFailure None;
     registerConsulta := fun _ => Resolved tt;
     getUsageSnapshot := fun _ =>
       Resolved {| creditsRemaining := Some 5%Z; plan := None;
                   validUntil := None |} |}.

(** Case analysis on the first computation of a chain of binds in the
    hypothesis [Hyp]; the branch of the thrown error is closed. *)
Ltac step_bind Hyp :=
  match type of Hyp with
  | context [mbind _ ?c] =>
      let E := fresh "E" in
      destruct c eqn:E; cbn [mbind completion_bind] in Hyp;
      [|discriminate Hyp]
  end.

(** ** Batch entry points and input cards *)

(** [fetchAllPersonServices]: one forced [fetchService] per person
    service with the document typed in, as [fetchAllVehicleServices]. *)
Definition fetchAllPersonServices `{Engine} (scr : Screen)
    (envs : jsstring -> Env) : list (jsstring * Outcome) :=
  let doc := formatDni (personaDoc scr) in
  map (fun k => (k, fetchService scr (envs k) k (Some doc) (Some (Some true))))
      (filter (fun k => match scope <$> serviceConfigs k with
                        | Some Persona => true
                        | _ => false
                        end = true)
              (map fst serviceTable)).

Definition PLACA_INCOMPLETA : Event :=
  Alert (str "Placa incompleta") (str "Completa los 6 caracteres para continuar.").

Definition DOCUMENTO_INCOMPLETO : Event :=
  Alert (str "Documento incompleto")
        (str "Ingresa los 8 d" ++ [237] ++ str "gitos del DNI.").

(** [handleConsult]: what the handler itself does, and the calls of the
    batch it starts. *)
Definition handleConsult `{Engine} (scr : Screen) (envs : jsstring -> Env)
  : list Event * list (jsstring * Outcome) :=
  if negb (nonEmpty (formattedPlate scr))
     || (length (formattedPlate scr) <? 7)%nat
  then ([PLACA_INCOMPLETA], [])
  else
    let '(allowed, alerts) := guardCredits scr in
    if negb allowed then (alerts, [])
    else ([Haptic], fetchAllVehicleServices scr envs).

(** [handlePersonConsult] *)
Definition handlePersonConsult `{Engine} (scr : Screen) (envs : jsstring -> Env)
  : list Event * list (jsstring * Outcome) :=
  let doc := formatDni (personaDoc scr) in
  if negb (length doc =? 8)%nat then ([DOCUMENTO_INCOMPLETO], [])
  else
    let '(allowed, alerts) := guardCredits scr in
    if negb allowed then (alerts, [])
    else ([Haptic], fetchAllPersonServices scr envs).

(** The next render of the screen: the callbacks close over the state
    as the updates left it. *)
Definition rerender (scr : Screen) (st : Store) : Screen :=
  {| plateInput := plateInput scr; personaDoc := personaDoc scr;
     serviceState := st_serviceState st; usage := st_usage st;
     sessionUserId := sessionUserId scr |}.

(** The update of the transition to [loading] in [fetchService]. *)
Definition loadingUpdate (queryValue : jsstring) : PartialState :=
  {| set_loading := Some true; set_error := Some None;
     set_query := Some queryValue; set_data := None;
     set_parsed := None; set_fetchedAt := None |}.

(** The owners of a record, none without a record. *)
Definition sunarpOwnersOf (parsed : option SunarpData) : list SunarpOwner :=
  match parsed with Some d => sunarp_propietarios d | None => [] end.

(** [s.padEnd(n, c)] for a one-character filler. *)
Definition padEnd (n : nat) (c : N) (s : jsstring) : jsstring :=
  s ++ replicate (n - length s) c.

(** [displayChars] of [PlateInputCard]: the characters of the boxes. *)
Definition plateDisplayChars `{Engine} (value : jsstring) : jsstring :=
  let cleaned := filter (fun c => isAlnum c = true) (formatPlate value) in
  take 6 (padEnd 6 32 cleaned).

(** [displayChars] of [PersonInputCard]. *)
Definition dniDisplayChars (value : jsstring) : jsstring :=
  take 8 (padEnd 8 32 (formatDni value)).

(** ** Dates *)

(** [[\/\-]] *)
Definition isDateSep (c : N) : bool := (c =? 47) || (c =? 45).

(** [s.split(/[\/\-]/)] *)
Fixpoint splitDate (s cur : jsstring) : list jsstring :=
  match s with
  | [] => [rev cur]
  | c :: rest =>
      if isDateSep c then rev cur :: splitDate rest []
      else splitDate rest (c :: cur)
  end.

(** The integer a sequence of decimal digits denotes. *)
Definition digitsValue (ds : jsstring) : Z :=
  foldl (fun acc c => (10 * acc + (Z.of_N c - 48))%Z) 0%Z ds.

(** [parseInt(s, 10)]: leading white space is skipped, a sign is read,
    then the longest run of digits; [None] stands for [NaN]. The number
    is the double nearest to the integer kept here, zero exactly when
    that integer is. *)
Definition parseInt10 (s : jsstring) : option Z :=
  let t := dropSpaces s in
  let '(negative, body) :=
    match t with
    | 45 :: r => (true, r)
    | 43 :: r => (false, r)
    | _ => (false, t)
    end in
  let ds := takeWhile isDigit body in
  if nonEmpty ds
  then Some (if negative then - digitsValue ds else digitsValue ds)%Z
  else None.

(** [!n] is false: the number is neither [NaN] nor zero. *)
Definition isNumber (n : option Z) : bool :=
  match n with Some z => negb (z =? 0)%Z | None => false end.

(** The [Date] that [new Date(y, m - 1, d)] builds, kept as the three
    numbers read. *)
Record DateParts := {
  date_d : Z;
  date_m : Z;
  date_y : Z;
}.

(** [Date.prototype.toLocaleDateString], which depends on the locale of
    the device. *)
Class Locale := {
  toLocaleDateString : DateParts -> jsstring;
}.

Definition parseDate (input : option jsstring) : option DateParts :=
  match input with
  | None => None
  | Some s =>
      if negb (nonEmpty s) then None
      else
        match map parseInt10 (splitDate s []) with
        | [d; m; y] =>
            if negb (isNumber d) || negb (isNumber m) || negb (isNumber y)
            then None
            else Some {| date_d := default 0%Z d; date_m := default 0%Z m;
                         date_y := default 0%Z y |}
        | _ => None
        end
  end.

Definition formatDisplayDate `{Locale} (dateStr : option jsstring) : jsstring :=
  match dateStr with
  | None => []
  | Some s =>
      if negb (nonEmpty s) then []
      else
        match parseDate dateStr with
        | Some d => toLocaleDateString d
        | None => s
        end
  end.

(** A locale that prints day/month/year in decimal. *)
Definition plainLocale : Locale :=
  {| toLocaleDateString := fun d =>
       decimal (date_d d) ++ str "/" ++ decimal (date_m d) ++ str "/"
       ++ decimal (date_y d) |}.

(** ** What the screen shows of the results *)



(** [sunarpOwnersBase]: the matches when there are any, the owners
    otherwise. *)
Definition sunarpOwnersBase (sunarpData : option SunarpData)
  : list SunarpOwner :=
  match sunarpData with
  | None => []
  | Some d =>
      if nonEmpty (sunarp_coincidencias d) then sunarp_coincidencias d
      else sunarp_propietarios d
  end.

(** [owner.nombre?.trim()]: a name that is neither absent nor a string
    has no [trim] to call. *)
Definition trimmedName `{Engine} (nombre : jsval) : Completion (option jsstring) :=
  match nombre with
  | JUndef | JNull => Return None
  | JStr s => Return (Some (trim s))
  | _ => typeError
  end.

(** The callback of [sunarpOwnersBase.map]: the line of an owner, [None]
    for [null]. *)
Definition ownerLine `{Engine} (owner : SunarpOwner)
  : Completion (option jsstring) :=
  name ← trimmedName (owner_nombre owner);
  let doc := trim <$> owner_documento owner in
  if present name && present doc
  then Return (Some (default [] name ++ str " (" ++ default [] doc ++ str ")"))
  else Return (let shown := orOpt name doc in
               if present shown then shown else None).

(** [sunarpOwnerLines]: [.map(...).filter(Boolean)] *)
Definition sunarpOwnerLines `{Engine} (sunarpData : option SunarpData)
  : Completion (list jsstring) :=
  lines ← forEachPush ownerLine (sunarpOwnersBase sunarpData);
  Return (filter (fun l => nonEmpty l = true) lines).

(** [sunarpOwnerSummary]: [.map(...).filter(Boolean).slice(0, 2).join(' · ')] *)
Definition sunarpOwnerSummary `{Engine} (sunarpData : option SunarpData)
  : Completion jsstring :=
  lines ← forEachPush ownerLine (sunarpOwnersBase sunarpData);
  Return (join [32; 183; 32] (take 2 (filter (fun l => nonEmpty l = true) lines))).

(** ** More sample inputs *)

Definition emptyStore : Store :=
  {| st_serviceState := @initialServiceState asciiEngine; st_usage := None;
     st_usageLoading := false |}.

(** The ledger refuses every entry. *)
Definition ledgerDown : Env :=
  {| startedAt := 0; settledAt := 0; loggedAt := 0;
     respond := fun _ => NetworkFailure (Some (str "Network request failed"));
     lookups := fun _ => NetworkFailure None;
     registerConsulta := fun _ => Rejected (Some (str "insert failed"));
     getUsageSnapshot := fun _ => Rejected None |}.

(** The SOAT service settled with an error for [ABC123]. *)
Definition failedScreen : Screen :=
  sampleScreen
    (<[str "soat" :=
         {| loading := false; error := Some (str "Error 500: sin detalle");
            data := JNull; parsed := Some PNull;
            query := Some (str "ABC123"); fetchedAt := Some 1%Z |}]>
       (@initialServiceState asciiEngine))
    None userOne.

(** An insurance text: the line of the update, the header and a row of
    eight columns. *)
Definition soatText : jsstring :=
  str "Informaci" ++ [243] ++ str "n actualizada: 10/10/2024 12:30" ++ [LF]
  ++ str "Compa" ++ [241; 237] ++ str "a Aseguradora" ++ [TAB] ++ str "Clase"
  ++ [LF]
  ++ str "RIMAC" ++ [TAB] ++ str "AUTO" ++ [TAB] ++ str "PARTICULAR" ++ [TAB]
  ++ str "0" ++ [TAB] ++ str "P-1" ++ [TAB] ++ str "C-1" ++ [TAB]
  ++ str "01/01/2024" ++ [TAB] ++ str "01/01/2025".

(** An ownership payload whose owner only has a document. *)
Definition sunarpOnlyDocument : jsval :=
  JObj [(str "propietarios",
         JArr [JObj [(str "documento", JStr (str "12345678"))]])].

(** An ownership text naming four owners. *)
Definition sunarpFourLines : jsstring :=
  str "Propietario: ANA" ++ [LF] ++ str "Propietario: LUIS" ++ [LF]
  ++ str "Propietario: ROSA" ++ [LF] ++ str "Propietario: JUAN".

(** A name that [owner.nombre?.trim()] accepts: absent or a string. *)
Definition isTextName (nombre : jsval) : bool :=
  match nombre with JUndef | JNull | JStr _ => true | _ => false end.

(** An owner with a name. *)
Definition named (owner : SunarpOwner) : Prop :=
  truthy (owner_nombre owner) = true.

(** As [step_bind], naming the value [x] and the equation [E]. *)
Ltac step_bind_as Hyp x E :=
  match type of Hyp with
  | context [mbind _ ?c] =>
      destruct c as [x|] eqn:E; cbn [mbind completion_bind] in Hyp;
      [|discriminate Hyp]
  end.

(** * Examples *)

Example splitLines_crlf :
  splitLines (str "a" ++ [CR; LF] ++ str "b" ++ [LF]) []
  = [str "a"; str "b"; []].
Proof. reflexivity. Qed.

Example tabTokens_runs :
  tabTokens (str "a" ++ [TAB; TAB] ++ str "b") = [str "a"; str "b"].
Proof. reflexivity. Qed.

Example matchDates_in_order :
  matchDates (str "x 01/02/2023 11/12/20245 ") 0
  = [str "01/02/2023"; str "11/12/2024"].
Proof. reflexivity. Qed.

Example decimal_status : decimal 500 = str "500".
Proof. reflexivity. Qed.

Example formatPlate_dash :
  @formatPlate asciiEngine (str "abc-1234") = str "ABC-123".
Proof. reflexivity. Qed.

Example toString_array :
  toStringOpt (JArr [JNum (str "1"); JNull; JStr (str "x")]) = Some (str "1,,x").
Proof. reflexivity. Qed.

Example centroMatch_found :
  centroMatch (str "Planta: Centro de Inspeccion Lima Norte, Av. 1")
  = Some (str "Centro de Inspeccion Lima Norte").
Proof. reflexivity. Qed.

Example parseSunarp_from_text :
  match @parseSunarp asciiEngine (JStr (str "Propietario: JUAN PEREZ")) (JObj []) with
  | Return (Some d) => map owner_nombre (sunarp_propietarios d)
  | _ => []
  end = [JStr (str "JUAN PEREZ")].
Proof. reflexivity. Qed.

(** The batch of the vehicle services with the endpoint of SUTRAN
    answering 500: six calls, six ledger entries, five of them
    successes, and, in the store after the updates of the six calls,
    SUTRAN alone settled with an error. *)
Example batch_one_endpoint_down :
  let results :=
    @fetchAllVehicleServices asciiEngine freshScreen (fun _ => sutranDown) in
  let st := runTrace {| st_serviceState := @initialServiceState asciiEngine;
                        st_usage := None; st_usageLoading := false |}
                     (concat (map (fun r => trace r.2) results)) in
  map fst results
  = [str "soat"; str "itv"; str "satlima"; str "satcallao"; str "sutran";
     str "sunarp"]
  ∧ map success (concat (map (fun r => ledgerWrites (trace r.2)) results))
    = [true; true; true; true; false; true]
  ∧ map (fun r => error <$> st_serviceState st !! r.1) results
    = [Some None; Some None; Some None; Some None;
       Some (Some (str "Error 500: Internal Server Error")); Some None].
Proof. vm_compute. done. Qed.

(** * Properties *)

Section Orchestrator.
Context `{Engine}.

Lemma transportCalls_app (a b : list Event) :
  transportCalls (a ++ b) = transportCalls a ++ transportCalls b.
Proof. unfold transportCalls. apply omap_app. Qed.

Lemma ledgerWrites_app (a b : list Event) :
  ledgerWrites (a ++ b) = ledgerWrites a ++ ledgerWrites b.
Proof. unfold ledgerWrites. apply omap_app. Qed.

Lemma transportCalls_fetches (sent : list Request) :
  transportCalls (map Fetch sent) = sent.
Proof. induction sent as [|r sent IH]; simpl; [done | by rewrite IH]. Qed.

Lemma ledgerWrites_fetches (sent : list Request) :
  ledgerWrites (map Fetch sent) = [].
Proof. induction sent as [|r sent IH]; simpl; done. Qed.

Lemma refreshUsage_no_calls scr env :
  transportCalls (trace (refreshUsage scr env)) = []
  ∧ ledgerWrites (trace (refreshUsage scr env)) = []
  ∧ stateUpdates (trace (refreshUsage scr env)) = [].
Proof.
  unfold refreshUsage. destruct (sessionUser scr); [|done].
  destruct (getUsageSnapshot env _); done.
Qed.

(** What [fetchService] does once no guard stops it. *)
Lemma fetchService_issued scr env key value opts config :
  serviceConfigs key = Some config →
  hasCredits (usage scr) = true →
  tooShort config (queryValueOf scr config value) = false →
  negb (forced opts) && cacheHit (serviceState scr !! key) (queryValueOf scr config value) = false →
  inFlight (serviceState scr !! key) = false →
  let queryValue := queryValueOf scr config value in
  let a := attempt env key config (respond env (requestOf config queryValue)) in
  let logged := logAttempt scr env key config queryValue a in
  fetchService scr env key value opts =
    {| trace :=
         [SetService key
            {| set_loading := Some true; set_error := Some None;
               set_query := Some queryValue; set_data := None;
               set_parsed := None; set_fetchedAt := None |};
          Haptic; Fetch (requestOf config queryValue)]
         ++ map Fetch (att_sent a)
         ++ [SetService key (settle env queryValue a)]
         ++ trace logged;
       rejected := rejected logged |}.
Proof.
  intros Hcfg Hcred Hlen Hcache Hfly. unfold fetchService, guardCredits.
  rewrite Hcfg, Hcred. simpl. rewrite Hlen, Hcache, Hfly. reflexivity.
Qed.

(** What [fetchService] does when a guard stops it: at most one alert. *)
Lemma fetchService_stopped scr env key value opts :
  (serviceConfigs key = None
   ∨ hasCredits (usage scr) = false
   ∨ ∃ config, serviceConfigs key = Some config
       ∧ (tooShort config (queryValueOf scr config value) = true
          ∨ negb (forced opts)
            && cacheHit (serviceState scr !! key) (queryValueOf scr config value) = true
          ∨ inFlight (serviceState scr !! key) = true)) →
  ∃ alerts, fetchService scr env key value opts = done alerts
    ∧ (alerts = [] ∨ ∃ title message, alerts = [Alert title message]).
Proof.
  unfold fetchService, guardCredits.
  intros [Hnone | [Hcred | (config & Hcfg & Hstop)]].
  - rewrite Hnone. eauto.
  - destruct (serviceConfigs key); [|eauto]. rewrite Hcred. simpl.
    eexists; split; [done|]. right. unfold SIN_CREDITOS. eauto.
  - rewrite Hcfg. destruct (hasCredits (usage scr)); simpl.
    + destruct (tooShort config _) eqn:Hlen.
      * eexists; split; [done|]. right. unfold INCOMPLETO.
        destruct (field config); eauto.
      * destruct (negb (forced opts) && cacheHit _ _) eqn:Hc; [eauto|].
        destruct (inFlight _) eqn:Hf; [eauto|].
        destruct Hstop as [? | [? | ?]]; congruence.
    + eexists; split; [done|]. right. unfold SIN_CREDITOS. eauto.
Qed.

Lemma stopped_trace_inert alerts :
  (alerts = [] ∨ ∃ title message, alerts = [Alert title message]) →
  transportCalls alerts = [] ∧ ledgerWrites alerts = []
  ∧ stateUpdates alerts = [] ∧ ∀ st, runTrace st alerts = st.
Proof. intros [-> | (t & m & ->)]; done. Qed.

End Orchestrator.

Section OrchestratorProperties.
Context `{Engine}.

(** C1. A non-forced issue whose query value equals the stored query of
    a settled-success state (data present, no error, not loading) makes
    no transport call, writes nothing to the ledger and updates no state:
    the store is left as it is, and when the credit gate lets the issue
    through nothing at all happens. *)
Theorem cache_hit_short_circuit scr env key value opts config current :
  serviceConfigs key = Some config →
  tooShort config (queryValueOf scr config value) = false →
  forced opts = false →
  serviceState scr !! key = Some current →
  query current = Some (queryValueOf scr config value) →
  truthy (data current) = true →
  present (error current) = false →
  loading current = false →
  let out := fetchService scr env key value opts in
  transportCalls (trace out) = []
  ∧ ledgerWrites (trace out) = []
  ∧ stateUpdates (trace out) = []
  ∧ (∀ st, runTrace st (trace out) = st)
  ∧ (hasCredits (usage scr) = true → trace out = []).
Proof.
  intros Hcfg Hlen Hforce Hcur Hq Hdata Herr Hload out.
  assert (Hhit : negb (forced opts)
                 && cacheHit (serviceState scr !! key)
                      (queryValueOf scr config value) = true).
  { rewrite Hforce, Hcur. unfold cacheHit.
    rewrite Hdata, Herr, Hload, bool_decide_eq_true_2 by done. done. }
  destruct (fetchService_stopped scr env key value opts) as (alerts & Hout & Hal).
  { right; right. exists config. eauto. }
  subst out. rewrite Hout. simpl.
  destruct (stopped_trace_inert alerts Hal) as (? & ? & ? & ?).
  repeat split; try done.
  intros Hcred. unfold fetchService, guardCredits in Hout.
  rewrite Hcfg, Hcred in Hout. simpl in Hout. rewrite Hlen, Hhit in Hout.
  by injection Hout.
Qed.

(** C3, as the code has it. A forced issue for a registered service
    that passes the credit gate and the length check calls the transport
    with the endpoint, field and query value of the service whenever no
    call for that id is in flight, whatever the cache holds; while a call
    for that id is in flight the forced issue does nothing. *)
Theorem forced_issue_calls_transport scr env key value opts config :
  serviceConfigs key = Some config →
  hasCredits (usage scr) = true →
  tooShort config (queryValueOf scr config value) = false →
  forced opts = true →
  let out := fetchService scr env key value opts in
  (inFlight (serviceState scr !! key) = false →
   ∃ more, transportCalls (trace out)
           = requestOf config (queryValueOf scr config value) :: more)
  ∧ (inFlight (serviceState scr !! key) = true → trace out = []).
Proof.
  intros Hcfg Hcred Hlen Hforce out. subst out. split; intros Hfly.
  - rewrite (fetchService_issued scr env key value opts config)
      by (try done; by rewrite Hforce).
    simpl. eauto.
  - unfold fetchService, guardCredits. rewrite Hcfg, Hcred. simpl.
    rewrite Hlen, Hforce, Hfly. done.
Qed.

(** C4. When the credit gate blocks an issue (the credits left are zero
    or negative), no ledger entry is written, no transport call is made
    and the state of no service is touched; for a registered service the
    only effect is the alert of the exhausted quota. *)
Theorem gate_blocked_is_inert scr env key value opts snapshot left :
  usage scr = Some snapshot →
  creditsRemaining snapshot = Some left →
  (left ≤ 0)%Z →
  let out := fetchService scr env key value opts in
  ledgerWrites (trace out) = []
  ∧ transportCalls (trace out) = []
  ∧ stateUpdates (trace out) = []
  ∧ (∀ st, runTrace st (trace out) = st)
  ∧ (is_Some (serviceConfigs key) → trace out = [SIN_CREDITOS]).
Proof.
  intros Hu Hleft Hle out.
  assert (Hcred : hasCredits (usage scr) = false).
  { unfold hasCredits. rewrite Hu, Hleft. apply Z.ltb_ge. lia. }
  destruct (fetchService_stopped scr env key value opts) as (alerts & Hout & Hal).
  { right; left. done. }
  subst out. rewrite Hout. simpl.
  destruct (stopped_trace_inert alerts Hal) as (? & ? & ? & ?).
  repeat split; try done.
  intros [config Hcfg]. unfold fetchService, guardCredits in Hout.
  rewrite Hcfg, Hcred in Hout. simpl in Hout. by injection Hout.
Qed.

(** C2, as the code has it. An attempt that passes the credit gate, the
    length check, the cache short-circuit and the in-flight guard while a
    user is signed in writes exactly one ledger entry, whether the call
    succeeds or fails; the entry carries the query value, the decoded
    response, the success flag, the error code, the duration and the
    endpoint, and when the write resolves the refresh of the usage
    snapshot follows it. Without a signed-in user nothing is written. *)
Theorem attempt_logged_once scr env key value opts config :
  serviceConfigs key = Some config →
  hasCredits (usage scr) = true →
  tooShort config (queryValueOf scr config value) = false →
  negb (forced opts)
  && cacheHit (serviceState scr !! key) (queryValueOf scr config value) = false →
  inFlight (serviceState scr !! key) = false →
  let queryValue := queryValueOf scr config value in
  let a := attempt env key config (respond env (requestOf config queryValue)) in
  let out := fetchService scr env key value opts in
  (∀ user, sessionUser scr = Some user →
     ∃ entry, ledgerWrites (trace out) = [entry]
       ∧ userId entry = user ∧ serviceKey entry = key
       ∧ payload entry = (fieldName (field config), queryValue)
       ∧ respuesta entry = att_data a
       ∧ success entry = (if att_result a is Return _ then true else false)
       ∧ errorCode entry = (if att_result a is Throw m
                            then Some (default (str "Error consultando") m)
                            else None)
       ∧ durationMs entry = (loggedAt env - startedAt env)%Z
       ∧ rawPath entry = endpoint config
       ∧ (is_Some (is_resolved (registerConsulta env entry)) →
          ∃ before after,
            trace out = before
                        ++ [RegisterConsulta entry; SetUsageLoading true;
                            GetUsageSnapshot user]
                        ++ after))
  ∧ (sessionUser scr = None → ledgerWrites (trace out) = []).
Proof.
  intros Hcfg Hcred Hlen Hcache Hfly queryValue a out. subst out.
  rewrite (fetchService_issued scr env key value opts config) by done.
  fold queryValue. fold a. simpl.
  rewrite !ledgerWrites_app, ledgerWrites_fetches. simpl.
  unfold logAttempt. split.
  - intros user Huser. rewrite Huser.
    set (entry := ledgerEntry scr env user key config queryValue a).
    exists entry.
    assert (Hone : ledgerWrites
              (trace match registerConsulta env entry with
                     | Resolved _ =>
                         {| trace := RegisterConsulta entry
                                     :: trace (refreshUsage scr env);
                            rejected := rejected (refreshUsage scr env) |}
                     | Rejected _ =>
                         {| trace := [RegisterConsulta entry]; rejected := true |}
                     end) = [entry]).
    { destruct (registerConsulta env entry); simpl; [|done].
      by rewrite (proj1 (proj2 (refreshUsage_no_calls scr env))). }
    rewrite Hone. repeat split; try done.
    intros [u Hres]. destruct (registerConsulta env entry) as [u'|m]; [|done].
    simpl. unfold refreshUsage. rewrite Huser.
    destruct (getUsageSnapshot env user); simpl.
    + eexists (_ :: _ :: _ :: map Fetch (att_sent a) ++ [_]), _.
      simpl. do 3 f_equal. rewrite <- app_assoc. simpl. reflexivity.
    + eexists (_ :: _ :: _ :: map Fetch (att_sent a) ++ [_]), _.
      simpl. do 3 f_equal. rewrite <- app_assoc. simpl. reflexivity.
  - intros Hnone. rewrite Hnone. done.
Qed.

End OrchestratorProperties.

Section ShapeOfDerivedValues.
Context `{Engine}.

Lemma alnum_facts c :
  isAlnum c = true →
  isAscii c = true ∧ isAlnum (upperAscii c) = true ∧ (c =? 45) = false.
Proof.
  unfold isAlnum, isAscii, upperAscii, isUpperAZ, isLowerAZ, isDigit, inRange.
  intros Hc.
  assert (Hr : 65 ≤ c ≤ 90 ∨ 97 ≤ c ≤ 122 ∨ 48 ≤ c ≤ 57).
  { rewrite !orb_true_iff, !andb_true_iff, !N.leb_le in Hc. lia. }
  clear Hc. repeat split.
  - apply N.ltb_lt. lia.
  - destruct ((97 <=? c) && (c <=? 122)) eqn:Hlow.
    + apply andb_true_iff in Hlow as [?%N.leb_le ?%N.leb_le].
      rewrite !orb_true_iff, !andb_true_iff, !N.leb_le. lia.
    + rewrite !orb_true_iff, !andb_true_iff, !N.leb_le. lia.
  - apply N.eqb_neq. lia.
Qed.

Lemma removeDash_without (s : jsstring) :
  Forall (λ c, (c =? 45) = false) s → removeDash s = s.
Proof.
  induction 1 as [|c s Hc _ IH]; simpl; [done|]. by rewrite Hc, IH.
Qed.

Lemma removeDash_first (a b : jsstring) :
  Forall (λ c, (c =? 45) = false) a → removeDash (a ++ 45 :: b) = a ++ b.
Proof.
  induction 1 as [|c s Hc _ IH]; simpl; [done|]. by rewrite Hc, IH.
Qed.

(** The characters [formatPlate] keeps. *)
Lemma clean_plate_alnum (value : jsstring) :
  Forall (λ c, isAlnum c = true)
         (take 6 (toUpperCase (filter (λ c, isAlnum c = true) value))).
Proof.
  apply Forall_take. unfold toUpperCase.
  assert (Hall : Forall (λ c, isAlnum c = true)
                        (filter (λ c, isAlnum c = true) value)).
  { apply Forall_forall. intros c Hc. by apply list_elem_of_filter in Hc as [? _]. }
  replace (forallb isAscii (filter (λ c, isAlnum c = true) value)) with true.
  - apply Forall_map. eapply Forall_impl; [exact Hall|].
    intros c Hc. simpl. by apply alnum_facts.
  - symmetry. apply forallb_forall. intros c Hc.
    apply list_elem_of_In in Hc. eapply Forall_forall in Hall; [|exact Hc].
    by apply alnum_facts.
Qed.

(** Stripping the dash of a formatted plate gives back its characters. *)
Lemma removeDash_formatPlate (value : jsstring) :
  removeDash (formatPlate value)
  = take 6 (toUpperCase (filter (λ c, isAlnum c = true) value)).
Proof.
  unfold formatPlate.
  pose proof (clean_plate_alnum value) as Hall.
  set (clean := take 6 _) in *.
  assert (Hlen : (length clean ≤ 6)%nat) by (subst clean; rewrite length_take; lia).
  assert (Hdash : Forall (λ c, (c =? 45) = false) clean).
  { eapply Forall_impl; [exact Hall|]. intros c Hc. by apply alnum_facts. }
  assert (Hparts : take 3 clean ++ take 3 (drop 3 clean) = clean).
  { rewrite take_take_drop. apply take_ge. lia. }
  destruct (3 <? length clean)%nat.
  - change (str "-") with [45]. simpl.
    rewrite removeDash_first by by apply Forall_take. done.
  - simpl. rewrite Hparts. by apply removeDash_without.
Qed.

Lemma formatDni_digits (value : jsstring) :
  Forall (λ c, isDigit c = true) (formatDni value) ∧ (length (formatDni value) ≤ 8)%nat.
Proof.
  unfold formatDni. split.
  - apply Forall_take, Forall_forall. intros c Hc.
    by apply list_elem_of_filter in Hc as [? _].
  - rewrite length_take. lia.
Qed.

End ShapeOfDerivedValues.

Section GateAndValidation.
Context `{Engine}.

Lemma derived_value_shape scr config :
  tooShort config (queryValueOf scr config None) = false
  ↔ wellShaped (field config) (queryValueOf scr config None).
Proof.
  unfold tooShort, queryValueOf, wellShaped, minLength, formattedPlate.
  destruct (field config).
  - rewrite removeDash_formatPlate.
    pose proof (clean_plate_alnum (plateInput scr)) as Hall.
    set (q := take 6 _) in *.
    assert (length q ≤ 6)%nat by (subst q; rewrite length_take; lia).
    rewrite orb_false_iff, Nat.ltb_ge. split.
    + intros [_ ?]. split; [lia | done].
    + intros [Hlen _]. split; [|lia]. by destruct q.
  - destruct (formatDni_digits (personaDoc scr)) as [Hall ?].
    set (q := formatDni _) in *.
    rewrite orb_false_iff, Nat.ltb_ge. split.
    + intros [_ ?]. split; [lia | done].
    + intros [Hlen _]. split; [|lia]. by destruct q.
Qed.

(** C5, as the code has it. A single-query issue checks the credit gate
    first: with the quota exhausted the only effect is the quota alert,
    whatever the shape of the query value. An issue that passes the gate
    with a query value that is empty or shorter than 6 (plate) or 8 (DNI)
    characters aborts with the validation alert before any state update,
    transport call or ledger write; for the value derived from the input
    this length check accepts exactly the plates of 6 alphanumeric
    characters and the documents of 8 digits. *)
Theorem invalid_shape_aborts scr env key value opts config :
  serviceConfigs key = Some config →
  let out := fetchService scr env key value opts in
  (tooShort config (queryValueOf scr config None) = false
   ↔ wellShaped (field config) (queryValueOf scr config None))
  ∧ (hasCredits (usage scr) = false → out = done [SIN_CREDITOS])
  ∧ (hasCredits (usage scr) = true →
     tooShort config (queryValueOf scr config value) = true →
     out = done [INCOMPLETO (field config)]
     ∧ transportCalls (trace out) = []
     ∧ ledgerWrites (trace out) = []
     ∧ stateUpdates (trace out) = []
     ∧ ∀ st, runTrace st (trace out) = st).
Proof.
  intros Hcfg out. split; [apply derived_value_shape|]. subst out.
  unfold fetchService, guardCredits. rewrite Hcfg. split.
  - intros ->. done.
  - intros -> Hlen. simpl. rewrite Hlen.
    repeat split; by destruct (field config).
Qed.

(** C9. While no usage snapshot is loaded the credit check answers true
    and the gate lets every query through without an alert: an issue
    behaves as it does for an unmetered account, and one that no other
    guard stops calls the transport. The snapshot is there once a
    refresh of the usage resolves. *)
Theorem no_snapshot_fails_open scr env key value opts :
  usage scr = None →
  hasCredits (usage scr) = true
  ∧ guardCredits scr = (true, [])
  ∧ (∀ snapshot, creditsRemaining snapshot = None →
       fetchService scr env key value opts
       = fetchService (withUsage scr (Some snapshot)) env key value opts)
  ∧ (∀ config, serviceConfigs key = Some config →
       tooShort config (queryValueOf scr config value) = false →
       negb (forced opts)
       && cacheHit (serviceState scr !! key) (queryValueOf scr config value)
       = false →
       inFlight (serviceState scr !! key) = false →
       ∃ more, transportCalls (trace (fetchService scr env key value opts))
               = requestOf config (queryValueOf scr config value) :: more)
  ∧ (∀ user snapshot st,
       sessionUser scr = Some user →
       getUsageSnapshot env user = Resolved snapshot →
       st_usage (runTrace st (trace (refreshUsage scr env))) = Some snapshot).
Proof.
  intros Hu.
  assert (Hcred : hasCredits (usage scr) = true) by by rewrite Hu.
  split; [done|]. split; [by unfold guardCredits; rewrite Hcred|].
  split; [|split].
  - intros snapshot Hnone. unfold fetchService, guardCredits.
    rewrite Hcred. simpl. unfold hasCredits. rewrite Hnone. reflexivity.
  - intros config Hcfg Hlen Hcache Hfly.
    rewrite (fetchService_issued scr env key value opts config) by done.
    simpl. eauto.
  - intros user snapshot st Huser Hsnap. unfold refreshUsage.
    rewrite Huser, Hsnap. reflexivity.
Qed.

End GateAndValidation.

Section Normalisers.
Context `{Engine}.

Lemma itvTokens_nonEmpty row t : t ∈ itvTokens row → nonEmpty t = true.
Proof.
  unfold itvTokens, tabTokens. destruct row as [r|]; [|by intros ?%elem_of_nil].
  destruct (nonEmpty r); [|by intros ?%elem_of_nil].
  by intros [? _]%list_elem_of_filter.
Qed.

Lemma itvEstado_present tokens s :
  (∀ t, t ∈ tokens → nonEmpty t = true) →
  itvEstado tokens = Some s → present (Some s) = true.
Proof.
  unfold itvEstado, coalesceOpt. intros Hall Hs. simpl. apply Hall.
  destruct (tokens !! 5%nat) eqn:H5.
  - injection Hs as <-. by eapply list_elem_of_lookup_2.
  - by eapply list_elem_of_lookup_2.
Qed.

(** What [parseItv] gives once the raw text is a string and the plate
    of the payload could be upper-cased. *)
Lemma parseItv_unfold raw full plateUpper :
  itvPlateUpper full = Return plateUpper →
  let tokens := itvTokens (itvRow (trimmedLines raw) plateUpper) in
  let estado := itvEstado tokens in
  let dates := matchDates raw 0 in
  let fallbackInicio := if (2 <=? length dates)%nat then dates !! 0%nat else None in
  let fallbackFin := if (2 <=? length dates)%nat then dates !! 1%nat else None in
  let vigencia := itvVigencia full estado in
  parseItv (JStr raw) full =
    if negb (present (tokens !! 2%nat) || present (tokens !! 3%nat)
             || present fallbackInicio || present fallbackFin
             || present estado || present vigencia
             || bool_decide (is_Some (centroMatch raw)))
    then Return None
    else Return (Some {| itv_inicio := orOpt (tokens !! 2%nat) fallbackInicio;
                         itv_fin := orOpt (tokens !! 3%nat) fallbackFin;
                         itv_estado := orOpt estado vigencia;
                         itv_vigencia := vigencia;
                         itv_centro := centroMatch raw |}).
Proof. intros Hp. unfold parseItv. simpl. rewrite Hp. reflexivity. Qed.


End Normalisers.


Section NullPolicy.
Context `{Engine}.

Lemma matchDates_nonEmpty s skip d :
  d ∈ matchDates s skip → nonEmpty d = true.
Proof.
  revert skip. induction s as [|c s IH]; intros skip; cbn [matchDates].
  - by intros ?%elem_of_nil.
  - destruct skip as [|k]; [|apply IH].
    destruct (dateAtHead (c :: s)) eqn:Hd; [|apply IH].
    intros [->|Hin]%elem_of_cons; [done | by eapply IH].
Qed.

Lemma present_lookup (l : list jsstring) i :
  (∀ t, t ∈ l → nonEmpty t = true) →
  present (l !! i) = false ↔ l !! i = None.
Proof.
  intros Hall. destruct (l !! i) as [t|] eqn:Hi; simpl; [|done].
  rewrite (Hall t) by by eapply list_elem_of_lookup_2. done.
Qed.

Lemma parseSoat_some raw :
  (∃ d, parseSoat (JStr raw) = Return (Some d))
  ↔ ∃ r, soatRow (trimmedLines raw) = Some r ∧ (8 ≤ length (tabTokens r))%nat.
Proof.
  unfold parseSoat. simpl. destruct (soatRow (trimmedLines raw)) as [r|].
  - destruct (nonEmpty r) eqn:Hr; simpl.
    + destruct (tabTokens r) as [|? [|? [|? [|? [|? [|? [|? [|? ?]]]]]]]] eqn:Ht;
        (split; [intros [d Hd] | intros (r0 & [= <-] & Hlen)]);
        try discriminate Hd; try (rewrite Ht in Hlen; simpl in Hlen; lia).
      * exists r. rewrite Ht. simpl. split; [done | lia].
      * eauto.
    + split; [by intros [? ?] | intros (r0 & [= <-] & Hlen)].
      destruct r; [|done]. simpl in Hlen. lia.
  - split; [by intros [? ?] | by intros (r & ? & _)].
Qed.

Lemma parseSoat_total raw : ∃ o, parseSoat (JStr raw) = Return o.
Proof.
  unfold parseSoat. simpl. destruct (soatRow _) as [r|]; [|eauto].
  destruct (negb (nonEmpty r)); [eauto|].
  destruct (tabTokens r) as [|? [|? [|? [|? [|? [|? [|? [|? ?]]]]]]]]; eauto.
Qed.

Lemma fallback_dates_absent (dates : list jsstring) :
  (∀ t, t ∈ dates → nonEmpty t = true) →
  present (if (2 <=? length dates)%nat then dates !! 0%nat else None)
  || present (if (2 <=? length dates)%nat then dates !! 1%nat else None) = false
  ↔ (length dates < 2)%nat.
Proof.
  intros Hdates. destruct (2 <=? length dates)%nat eqn:Hlen.
  - apply Nat.leb_le in Hlen.
    destruct dates as [|d0 [|d1 ?]]; simpl in *; try lia.
    rewrite (Hdates d0) by set_solver. simpl. split; [done | lia].
  - apply Nat.leb_gt in Hlen. done.
Qed.

Lemma parseItv_none raw full plateUpper :
  itvPlateUpper full = Return plateUpper →
  let tokens := itvTokens (itvRow (trimmedLines raw) plateUpper) in
  parseItv (JStr raw) full = Return None
  ↔ tokens !! 2%nat = None ∧ tokens !! 3%nat = None
    ∧ itvEstado tokens = None
    ∧ itvVigencia full (itvEstado tokens) = None
    ∧ (length (matchDates raw 0) < 2)%nat
    ∧ centroMatch raw = None.
Proof.
  intros Hp tokens.
  rewrite (parseItv_unfold raw full plateUpper Hp). fold tokens.
  assert (Htok : ∀ t, t ∈ tokens → nonEmpty t = true)
    by apply itvTokens_nonEmpty.
  assert (Hest : present (itvEstado tokens) = false ↔ itvEstado tokens = None).
  { destruct (itvEstado tokens) as [s|] eqn:Hs; [|done].
    rewrite (itvEstado_present tokens s Htok Hs). done. }
  assert (Hvig : present (itvVigencia full (itvEstado tokens)) = false
                 ↔ itvVigencia full (itvEstado tokens) = None).
  { unfold itvVigencia. destruct (full?."vigente")%js as [| |[]| | | |]; done. }
  pose proof (fallback_dates_absent (matchDates raw 0)
                (λ t, matchDates_nonEmpty raw 0 t)) as Hfb.
  assert (Hcen : bool_decide (is_Some (centroMatch raw)) = false
                 ↔ centroMatch raw = None).
  { destruct (centroMatch raw); [|done]. by rewrite bool_decide_eq_true_2. }
  rewrite <- (present_lookup tokens 2 Htok), <- (present_lookup tokens 3 Htok),
    <- Hest, <- Hvig, <- Hfb, <- Hcen.
  clear Hest Hvig Hfb Hcen Htok Hp.
  destruct (present (tokens !! 2%nat)), (present (tokens !! 3%nat)),
    (present (itvEstado tokens)), (present (itvVigencia full (itvEstado tokens))),
    (present (if (2 <=? length (matchDates raw 0))%nat
              then matchDates raw 0 !! 0%nat else None)),
    (present (if (2 <=? length (matchDates raw 0))%nat
              then matchDates raw 0 !! 1%nat else None)),
    (bool_decide (is_Some (centroMatch raw))); simpl;
    (split; [intros ? | intros (? & ? & ? & ? & ? & ?)]; done).
Qed.

End NullPolicy.

Section SunarpNull.
Context `{Engine}.

Lemma truthy_jsOr a b : truthy (a ||| b)%js = truthy a || truthy b.
Proof. unfold jsOr. by destruct (truthy a) eqn:Ha. Qed.

Lemma parseSunarp_some raw full d :
  parseSunarp raw full = Return (Some d) →
  nonEmpty (sunarp_propietarios d) || nonEmpty (sunarp_coincidencias d)
  || truthy (sunarp_placa d ||| sunarp_vin d ||| sunarp_partida d
             ||| sunarp_oficina d)%js = true.
Proof.
  unfold parseSunarp. intros Hparse. cbv zeta in Hparse.
  do 7 step_bind Hparse.
  match type of Hparse with
  | (if ?c then _ else _) = _ => destruct c eqn:Hnull; [discriminate Hparse|]
  end.
  injection Hparse as <-. cbn [sunarp_propietarios sunarp_coincidencias
    sunarp_placa sunarp_vin sunarp_partida sunarp_oficina].
  rewrite <- !negb_orb in Hnull. by apply negb_false_iff in Hnull.
Qed.

Lemma parseSunarp_none raw full :
  parseSunarp raw full = Return None →
  ownersOfText raw = Return []
  ∧ truthy ((datosOf full)?."placa" ||| (datosOf full)?."placa_rodaje"
            ||| JStr [])%js = false
  ∧ truthy ((datosOf full)?."vin" ||| (datosOf full)?."vin_vehicular"
            ||| (datosOf full)?."numero_vin" ||| JStr [])%js = false
  ∧ truthy ((datosOf full)?."partida" ||| (datosOf full)?."nro_partida"
            ||| JStr [])%js = false
  ∧ truthy ((datosOf full)?."oficina" ||| (datosOf full)?."zona"
            ||| (datosOf full)?."zona_registral" ||| JStr [])%js = false.
Proof.
  unfold parseSunarp. intros Hparse. cbv zeta in Hparse.
  do 7 step_bind Hparse.
  match type of Hparse with
  | (if ?c then _ else _) = _ => destruct c eqn:Hnull; [|discriminate Hparse]
  end.
  apply andb_true_iff in Hnull as [[Hown _]%andb_true_iff Hids].
  apply negb_true_iff in Hids.
  split.
  - match type of E3 with
    | match ?l with [] => _ | _ => _ end = _ => destruct l; [|injection E3 as <-; done]
    end.
    rewrite E3. by destruct a3.
  - repeat rewrite truthy_jsOr in Hids. repeat rewrite truthy_jsOr.
    repeat rewrite orb_false_iff in Hids. repeat rewrite orb_false_iff.
    tauto.
Qed.

End SunarpNull.

Section RegistryParsers.
Context `{Engine}.

Lemma jsOr_defaulted a d : defaulted d (a ||| d)%js.
Proof. unfold defaulted, jsOr. destruct (truthy a) eqn:Ha; eauto. Qed.

Lemma person_parsers raw full :
  (∃ config, serviceConfigs (str "licencia") = Some config
     ∧ runParser config raw full = Return (PLicencia (parseLicencia raw full)))
  ∧ (∃ config, serviceConfigs (str "dniperu") = Some config
     ∧ runParser config raw full = Return (PDniPeru (parseDniPeru raw full)))
  ∧ (∃ config, serviceConfigs (str "redam") = Some config
     ∧ runParser config raw full = Return (PRedam (parseRedam raw full))).
Proof. repeat split; eexists; split; reflexivity. Qed.

(** C6, as the code has it. [parseItv] returns null only when none of
    its fields could be extracted, and a record otherwise; the licence,
    identity and debt normalisers never return null. [parseSoat] returns
    a record exactly when the row it selects has at least 8 columns,
    and null otherwise; [parseSunarp] returns a record only with an
    owner, a match or one of plate, VIN, entry and office, and null only
    with none of them. *)
Theorem null_result_policy :
  (∀ raw,
     (∃ o, parseSoat (JStr raw) = Return o)
     ∧ ((∃ d, parseSoat (JStr raw) = Return (Some d))
        ↔ ∃ r, soatRow (trimmedLines raw) = Some r
               ∧ (8 ≤ length (tabTokens r))%nat))
  ∧ (∀ raw full plateUpper,
       itvPlateUpper full = Return plateUpper →
       (∃ o, parseItv (JStr raw) full = Return o)
       ∧ (parseItv (JStr raw) full = Return None
          ↔ itvTokens (itvRow (trimmedLines raw) plateUpper) !! 2%nat = None
            ∧ itvTokens (itvRow (trimmedLines raw) plateUpper) !! 3%nat = None
            ∧ itvEstado (itvTokens (itvRow (trimmedLines raw) plateUpper)) = None
            ∧ itvVigencia full
                (itvEstado (itvTokens (itvRow (trimmedLines raw) plateUpper)))
              = None
            ∧ (length (matchDates raw 0) < 2)%nat
            ∧ centroMatch raw = None))
  ∧ (∀ raw full,
       (∀ d, parseSunarp raw full = Return (Some d) →
          nonEmpty (sunarp_propietarios d) || nonEmpty (sunarp_coincidencias d)
          || truthy (sunarp_placa d ||| sunarp_vin d ||| sunarp_partida d
                     ||| sunarp_oficina d)%js = true)
       ∧ (parseSunarp raw full = Return None →
          ownersOfText raw = Return []
          ∧ truthy ((datosOf full)?."placa" ||| (datosOf full)?."placa_rodaje"
                    ||| JStr [])%js = false
          ∧ truthy ((datosOf full)?."vin" ||| (datosOf full)?."vin_vehicular"
                    ||| (datosOf full)?."numero_vin" ||| JStr [])%js = false
          ∧ truthy ((datosOf full)?."partida" ||| (datosOf full)?."nro_partida"
                    ||| JStr [])%js = false
          ∧ truthy ((datosOf full)?."oficina" ||| (datosOf full)?."zona"
                    ||| (datosOf full)?."zona_registral" ||| JStr [])%js
            = false))
  ∧ (∀ raw full key,
       key ∈ [str "licencia"; str "dniperu"; str "redam"] →
       ∃ config record, serviceConfigs key = Some config
         ∧ runParser config raw full = Return record ∧ record ≠ PNull).
Proof.
  split; [|split; [|split]].
  - intros raw. split; [apply parseSoat_total | apply parseSoat_some].
  - intros raw full plateUpper Hp. split; [|by apply parseItv_none].
    rewrite (parseItv_unfold raw full plateUpper Hp).
    destruct (negb _); eauto.
  - intros raw full. split.
    + intros d. apply parseSunarp_some.
    + apply parseSunarp_none.
  - intros raw full key Hkey.
    destruct (person_parsers raw full) as ((c1 & ? & ?) & (c2 & ? & ?) & (c3 & ? & ?)).
    repeat (apply elem_of_cons in Hkey as [-> | Hkey]);
      [| | | by apply elem_of_nil in Hkey]; eauto 6.
Qed.

(** C10. The licence, identity and debt normalisers give a record for
    every raw text and every payload, never null and never an error; each
    field holds a value of the payload or its default (the empty string,
    the empty array, zero), and for the payloads without fields the
    record is the one of the defaults. *)
Theorem person_normalisers_never_null raw full :
  ((∃ config, serviceConfigs (str "licencia") = Some config
      ∧ runParser config raw full = Return (PLicencia (parseLicencia raw full)))
   ∧ (∃ config, serviceConfigs (str "dniperu") = Some config
      ∧ runParser config raw full = Return (PDniPeru (parseDniPeru raw full)))
   ∧ (∃ config, serviceConfigs (str "redam") = Some config
      ∧ runParser config raw full = Return (PRedam (parseRedam raw full))))
  ∧ (parseLicencia raw JUndef = emptyLicencia
     ∧ parseLicencia raw JNull = emptyLicencia
     ∧ parseLicencia raw (JObj []) = emptyLicencia
     ∧ parseDniPeru raw JUndef = emptyDni
     ∧ parseDniPeru raw JNull = emptyDni
     ∧ parseDniPeru raw (JObj []) = emptyDni
     ∧ parseRedam raw JUndef = emptyRedam
     ∧ parseRedam raw JNull = emptyRedam
     ∧ parseRedam raw (JObj []) = emptyRedam)
  ∧ (let l := parseLicencia raw full in
     defaulted (JStr []) (lic_numero l) ∧ defaulted (JStr []) (lic_clase l)
     ∧ defaulted (JStr []) (lic_restricciones l)
     ∧ defaulted (JStr []) (lic_estado l)
     ∧ defaulted (JStr []) (lic_vencimiento l)
     ∧ defaulted (JStr []) (lic_nombres l)
     ∧ defaulted (JStr []) (lic_puntosFirmes l)
     ∧ defaulted (JStr []) (lic_infracciones l)
     ∧ defaulted (JStr []) (lic_graves l)
     ∧ defaulted (JStr []) (lic_muyGraves l)
     ∧ defaulted (JArr []) (lic_tramites l)
     ∧ defaulted (JArr []) (lic_bonificaciones l))
  ∧ (let p := parseDniPeru raw full in
     defaulted (JStr []) (dni_nombres p)
     ∧ defaulted (JStr []) (dni_apellidoPaterno p)
     ∧ defaulted (JStr []) (dni_apellidoMaterno p)
     ∧ defaulted (JStr []) (dni_codigoVerificacion p)
     ∧ defaulted (JStr []) (dni_direccion p))
  ∧ (let r := parseRedam raw full in
     (∃ items, ((datosOf full)?."registros" ||| JArr [])%js = JArr items
        ∧ redam_total r = length items ∧ redam_detalle r = take 3 items)
     ∨ r = emptyRedam).
Proof.
  split; [apply person_parsers|]. split; [repeat split|].
  split; [|split].
  - simpl. repeat split; apply jsOr_defaulted.
  - simpl. repeat split; apply jsOr_defaulted.
  - simpl. unfold parseRedam.
    destruct ((datosOf full)?."registros" ||| JArr [])%js; eauto.
Qed.

End RegistryParsers.

Section Enricher.
Context `{Engine}.

Lemma enrichOwners_length dniConfig answers k props :
  length (enrichOwners dniConfig answers k props).1 = length props.
Proof.
  revert k. induction props as [|prop rest IH]; intros k; simpl; [done|].
  destruct (enrichOwner dniConfig (answers k) prop) as [owner sent].
  specialize (IH (S k)).
  destruct (enrichOwners dniConfig answers (S k) rest) as [owners sentRest].
  simpl in *. by rewrite IH.
Qed.

(** Each owner settles to what its own lookup gives, at its own place. *)
Lemma enrichOwners_lookup dniConfig answers k props i prop :
  props !! i = Some prop →
  (enrichOwners dniConfig answers k props).1 !! i
  = Some (enrichOwner dniConfig (answers (k + i)%nat) prop).1.
Proof.
  revert k i. induction props as [|p rest IH]; intros k i Hi; [done|].
  simpl.
  destruct (enrichOwner dniConfig (answers k) p) as [owner sent] eqn:Hown.
  specialize (IH (S k)).
  destruct (enrichOwners dniConfig answers (S k) rest) as [owners sentRest].
  destruct i as [|i]; simpl in *.
  - injection Hi as <-. by rewrite Nat.add_0_r, Hown.
  - rewrite (IH i Hi). by rewrite Nat.add_succ_r.
Qed.

(** One lookup is issued for each owner with a usable document, in the
    order of the owners, whatever the other lookups give. *)
Lemma enrichOwners_sent dniConfig answers k props :
  (enrichOwners dniConfig answers k props).2
  = omap (λ p, requestOf dniConfig <$> usableDni p) props.
Proof.
  revert k. induction props as [|prop rest IH]; intros k; simpl; [done|].
  specialize (IH (S k)). unfold enrichOwner.
  destruct (enrichOwners dniConfig answers (S k) rest) as [owners sentRest].
  simpl in IH. destruct (usableDni prop); simpl; by rewrite IH.
Qed.

Lemma enrichOwner_failure dniConfig res prop :
  lookupFails res → (enrichOwner dniConfig res prop).1 = prop.
Proof.
  unfold enrichOwner, lookupFails. destruct (usableDni prop) as [dni|]; [|done].
  simpl. destruct res as [m | status text json]; [done|].
  intros [Hok | Hjson]; simpl.
  - by rewrite Hok.
  - destruct (ok status); simpl; [|done]. by destruct json.
Qed.

Lemma nullish_jsOr_text a : (a ||| JStr [] ??? JStr [])%js = (a ||| JStr [])%js.
Proof. unfold jsCoalesce, jsOr. destruct (truthy a) eqn:Ha; [|done]. by destruct a. Qed.

(** What a lookup that succeeds adds to an owner. *)
Lemma enrichOwner_success dniConfig prop dni status text data :
  usableDni prop = Some dni →
  ok status = true →
  let identity := parseDniPeru ((data?."resultado_crudo") ??? JStr [])%js data in
  is_Some (toStringOpt (dni_nombres identity)) →
  is_Some (toStringOpt (dni_apellidoPaterno identity)) →
  is_Some (toStringOpt (dni_apellidoMaterno identity)) →
  let enriched :=
    (enrichOwner dniConfig (Http status text (Resolved data)) prop).1 in
  (∃ r, owner_reniec enriched = Some r ∧ reniec_identity r = identity)
  ∧ owner_documento enriched = owner_documento prop
  ∧ owner_porcentaje enriched = owner_porcentaje prop
  ∧ owner_condicion enriched = owner_condicion prop
  ∧ (truthy (owner_nombre prop) = true →
     owner_nombre enriched = owner_nombre prop).
Proof.
  intros Hdni Hok identity [n Hn] [p Hp] [m Hm] enriched.
  subst enriched. unfold enrichOwner. rewrite Hdni. simpl.
  rewrite Hok. simpl. fold identity.
  unfold identity, parseDniPeru at 1 2 3. cbn [dni_nombres dni_apellidoPaterno
    dni_apellidoMaterno]. rewrite !nullish_jsOr_text.
  unfold toString.
  unfold identity, parseDniPeru in Hn, Hp, Hm. simpl in Hn, Hp, Hm.
  rewrite Hn, Hp, Hm. simpl.
  destruct (nonEmpty (trim _)); simpl; repeat split; eauto.
  intros Ht. unfold jsOr. by rewrite Ht.
Qed.

(** C8. For every ownership record given to the enricher and every
    owner of it: the enricher returns a record with the same number of
    owners, the owner at its own place; what the owner becomes depends on
    its own lookup alone. An owner whose lookup fails, or that has no
    usable document, is returned unchanged; an owner whose lookup
    succeeds carries the identity record, keeps its document, share and
    condition, and keeps its name when it has one. The other fields of
    the record are untouched, and one lookup is issued for each owner with
    a usable document whatever the other lookups give. *)
Theorem enricher_tolerates_failure answers d i prop :
  sunarp_propietarios d !! i = Some prop →
  ∃ d' prop' dniConfig,
    serviceConfigs (str "dniperu") = Some dniConfig
    ∧ (enrichSunarpWithDni answers (Some d)).1 = Some d'
    ∧ length (sunarp_propietarios d') = length (sunarp_propietarios d)
    ∧ sunarp_propietarios d' !! i = Some prop'
    ∧ prop' = (enrichOwner dniConfig (answers i) prop).1
    ∧ (lookupFails (answers i) → prop' = prop)
    ∧ (usableDni prop = None → prop' = prop)
    ∧ (∀ dni status text data,
         usableDni prop = Some dni →
         answers i = Http status text (Resolved data) →
         ok status = true →
         let identity :=
           parseDniPeru ((data?."resultado_crudo") ??? JStr [])%js data in
         is_Some (toStringOpt (dni_nombres identity)) →
         is_Some (toStringOpt (dni_apellidoPaterno identity)) →
         is_Some (toStringOpt (dni_apellidoMaterno identity)) →
         (∃ r, owner_reniec prop' = Some r ∧ reniec_identity r = identity)
         ∧ owner_documento prop' = owner_documento prop
         ∧ owner_porcentaje prop' = owner_porcentaje prop
         ∧ owner_condicion prop' = owner_condicion prop
         ∧ (truthy (owner_nombre prop) = true →
            owner_nombre prop' = owner_nombre prop))
    ∧ withPropietarios d' (sunarp_propietarios d) = d
    ∧ (enrichSunarpWithDni answers (Some d)).2
      = omap (λ p, requestOf dniConfig <$> usableDni p) (sunarp_propietarios d).
Proof.
  intros Hi.
  assert (Hne : nonEmpty (sunarp_propietarios d) = true).
  { destruct (sunarp_propietarios d); [done | done]. }
  unfold enrichSunarpWithDni. rewrite Hne. simpl.
  set (dniConfig := mkConfig "consulta-dni-peru" _ Dni Persona).
  change (serviceConfigs (str "dniperu")) with (Some dniConfig).
  change (nonEmpty (endpoint dniConfig)) with true. simpl.
  pose proof (enrichOwners_length dniConfig answers 0 (sunarp_propietarios d)) as Hlen.
  pose proof (enrichOwners_lookup dniConfig answers 0 (sunarp_propietarios d)
                i prop Hi) as Hlook.
  pose proof (enrichOwners_sent dniConfig answers 0 (sunarp_propietarios d))
    as Hsent.
  destruct (enrichOwners dniConfig answers 0 (sunarp_propietarios d))
    as [owners sent].
  simpl in *.
  exists (withPropietarios d owners), (enrichOwner dniConfig (answers i) prop).1,
    dniConfig.
  split; [done|]. split; [done|]. split; [done|]. split; [done|].
  split; [done|].
  split; [by apply enrichOwner_failure|].
  split; [intros Hnone; unfold enrichOwner; by rewrite Hnone|].
  split; [|split; [by destruct d | done]].
  intros dni status text data Hdni Hans Hok Hn Hp Hm.
  rewrite Hans.
  by apply (enrichOwner_success dniConfig prop dni status text data).
Qed.

End Enricher.

(** * The properties at concrete inputs *)

Lemma cache_hit_short_circuit_witness :
  let out := @fetchService asciiEngine cachedScreen offlineEnv (str "soat")
               None forceFalse in
  transportCalls (trace out) = []
  ∧ ledgerWrites (trace out) = []
  ∧ stateUpdates (trace out) = []
  ∧ (∀ st, runTrace st (trace out) = st)
  ∧ (hasCredits (usage cachedScreen) = true → trace out = []).
Proof.
  eapply (cache_hit_short_circuit (H:=asciiEngine) cachedScreen offlineEnv
            (str "soat") None forceFalse _ (settledSuccess (str "ABC123")));
    reflexivity.
Defined.

(** C3 as stated fails: a forced issue while a call for the same id is
    in flight makes no transport call. *)
Lemma forced_issue_in_flight_no_call :
  forced forceTrue = true
  ∧ hasCredits (usage loadingScreen) = true
  ∧ is_Some (@serviceConfigs asciiEngine (str "soat"))
  ∧ transportCalls
      (trace (@fetchService asciiEngine loadingScreen offlineEnv (str "soat")
                (Some (str "ABC123")) forceTrue)) = [].
Proof. repeat split; done. Qed.

Lemma forced_issue_calls_transport_witness :
  let out := @fetchService asciiEngine cachedScreen offlineEnv (str "soat")
               None forceTrue in
  (inFlight (serviceState cachedScreen !! str "soat") = false →
   ∃ more, transportCalls (trace out)
           = {| req_endpoint := str "http://localhost:8000/consulta-soat";
                req_field := str "placa"; req_value := str "ABC123" |} :: more)
  ∧ (inFlight (serviceState cachedScreen !! str "soat") = true → trace out = []).
Proof.
  exact (forced_issue_calls_transport (H:=asciiEngine) cachedScreen offlineEnv
           (str "soat") None forceTrue _ eq_refl eq_refl eq_refl eq_refl).
Defined.

Lemma gate_blocked_is_inert_witness :
  let out := @fetchService asciiEngine exhaustedScreen offlineEnv (str "soat")
               None forceTrue in
  ledgerWrites (trace out) = []
  ∧ transportCalls (trace out) = []
  ∧ stateUpdates (trace out) = []
  ∧ (∀ st, runTrace st (trace out) = st)
  ∧ (is_Some (@serviceConfigs asciiEngine (str "soat")) →
     trace out = [SIN_CREDITOS]).
Proof.
  eapply (gate_blocked_is_inert (H:=asciiEngine) exhaustedScreen offlineEnv
            (str "soat") None forceTrue (credits 0) 0%Z);
    [reflexivity | reflexivity | lia].
Defined.

(** C2 as stated fails: an attempt that passes the credit gate and the
    validation, and calls the transport, writes no ledger entry when
    nobody is signed in. *)
Lemma attempt_without_session_not_logged :
  let out := @fetchService asciiEngine anonymousScreen offlineEnv (str "soat")
               None forceTrue in
  hasCredits (usage anonymousScreen) = true
  ∧ transportCalls (trace out)
    = [{| req_endpoint := str "http://localhost:8000/consulta-soat";
          req_field := str "placa"; req_value := str "ABC123" |}]
  ∧ ledgerWrites (trace out) = [].
Proof. vm_compute. done. Qed.

Lemma attempt_logged_once_witness :
  let out := @fetchService asciiEngine freshScreen offlineEnv (str "soat")
               None forceTrue in
  ∃ entry, ledgerWrites (trace out) = [entry]
    ∧ userId entry = str "user-1"
    ∧ payload entry = (str "placa", str "ABC123")
    ∧ success entry = false
    ∧ errorCode entry = Some (str "Network request failed")
    ∧ rawPath entry = str "http://localhost:8000/consulta-soat"
    ∧ ∃ before after,
        trace out = before
                    ++ [RegisterConsulta entry; SetUsageLoading true;
                        GetUsageSnapshot (str "user-1")]
                    ++ after.
Proof.
  destruct (attempt_logged_once (H:=asciiEngine) freshScreen offlineEnv
              (str "soat") None forceTrue _ eq_refl eq_refl eq_refl eq_refl
              eq_refl) as [logged _].
  destruct (logged (str "user-1") eq_refl)
    as (entry & Hone & Huser & _ & Hpayload & _ & Hsuccess & Hcode & _ & Hpath
        & Hrefresh).
  exists entry. repeat split; try assumption.
  apply Hrefresh. injection Hone as <-. by eexists.
Defined.

(** C5 as stated fails: with the quota exhausted an issue with an
    incomplete plate surfaces the quota alert, not a validation error;
    the gate is checked before the shape. *)
Lemma gate_checked_before_shape :
  let out := @fetchService asciiEngine exhaustedShortScreen offlineEnv
               (str "soat") None forceFalse in
  (∃ config, @serviceConfigs asciiEngine (str "soat") = Some config
     ∧ tooShort config (@queryValueOf asciiEngine exhaustedShortScreen config None)
       = true)
  ∧ trace out = [SIN_CREDITOS]
  ∧ trace out ≠ [INCOMPLETO Placa].
Proof. split; [by eexists | split; done]. Qed.

Lemma invalid_shape_aborts_witness :
  let out := @fetchService asciiEngine shortScreen offlineEnv (str "soat")
               None forceFalse in
  out = done [INCOMPLETO Placa]
  ∧ transportCalls (trace out) = []
  ∧ ledgerWrites (trace out) = []
  ∧ stateUpdates (trace out) = []
  ∧ ∀ st, runTrace st (trace out) = st.
Proof.
  destruct (invalid_shape_aborts (H:=asciiEngine) shortScreen offlineEnv
              (str "soat") None forceFalse _ eq_refl) as (_ & _ & aborts).
  exact (aborts eq_refl eq_refl).
Defined.

(** C6 as stated fails: [parseSoat] returns null for a row of seven
    columns, and [parseSunarp] returns null for a payload from which the
    document of the owner is extracted. *)
Lemma null_despite_extracted_fields :
  (@soatRow asciiEngine (trimmedLines soatSevenColumns) = Some soatSevenColumns
   ∧ length (tabTokens soatSevenColumns) = 7%nat
   ∧ @parseSoat asciiEngine (JStr soatSevenColumns) = Return None)
  ∧ (@trimmedText asciiEngine
       ((datosOf sunarpOnlyDni)?."dni_propietario" ||| JStr [])%js
     = Return (str "12345678")
     ∧ @parseSunarp asciiEngine (JStr []) sunarpOnlyDni = Return None).
Proof. vm_compute. done. Qed.

Lemma null_result_policy_witness :
  (∃ d, @parseItv asciiEngine (JStr itvScenario) itvPayload = Return (Some d))
  ∧ ∃ record,
      runParser (default (mkConfig "" None Dni Persona)
                         (@serviceConfigs asciiEngine (str "redam")))
                (JStr []) JUndef = Return record
      ∧ record ≠ PNull.
Proof.
  destruct (null_result_policy (H:=asciiEngine)) as (_ & itv & _ & person).
  split.
  - destruct (itv itvScenario itvPayload (str "ABC123") eq_refl)
      as [[[d|] Hd] Hnull]; [by exists d|].
    apply Hnull in Hd as (_ & _ & _ & Hv & _). discriminate Hv.
  - destruct (person (JStr []) JUndef (str "redam")) as (config & record & Hc & Hr & Hn).
    + repeat constructor.
    + exists record. split; [|done]. by rewrite Hc.
Defined.


Lemma enricher_tolerates_failure_witness :
  ∃ d' first second third,
    (@enrichSunarpWithDni asciiEngine secondFails (Some threeOwners)).1 = Some d'
    ∧ sunarp_propietarios d' = [first; second; third]
    ∧ is_Some (owner_reniec first)
    ∧ second = ownerWith "Luis Diaz" "23456789"
    ∧ is_Some (owner_reniec third)
    ∧ owner_nombre first = JStr (str "Ana Lopez").
Proof.
  destruct (enricher_tolerates_failure (H:=asciiEngine) secondFails threeOwners
              1 (ownerWith "Luis Diaz" "23456789") eq_refl)
    as (d' & second & dniConfig & _ & Hd & Hlen & Hsecond & _ & Hfail & _).
  rewrite (Hfail I) in Hsecond.
  exists d'. injection Hd as <-.
  eexists _, _, _. repeat split; by eexists.
Defined.

Lemma no_snapshot_fails_open_witness :
  hasCredits (usage freshScreen) = true
  ∧ guardCredits freshScreen = (true, [])
  ∧ ∃ more,
      transportCalls
        (trace (@fetchService asciiEngine freshScreen offlineEnv (str "soat")
                  None forceFalse))
      = {| req_endpoint := str "http://localhost:8000/consulta-soat";
           req_field := str "placa"; req_value := str "ABC123" |} :: more.
Proof.
  destruct (no_snapshot_fails_open (H:=asciiEngine) freshScreen offlineEnv
              (str "soat") None forceFalse eq_refl)
    as (Hcred & Hguard & _ & Hcalls & _).
  split; [exact Hcred|]. split; [exact Hguard|].
  exact (Hcalls _ eq_refl eq_refl eq_refl eq_refl).
Defined.

(** * Further properties *)

Section InputFormatting.
Context `{Engine}.

Lemma upperAscii_idem c : upperAscii (upperAscii c) = upperAscii c.
Proof.
  unfold upperAscii, isLowerAZ, inRange.
  destruct ((97 <=? c) && (c <=? 122)) eqn:Hlow; [|by rewrite Hlow].
  apply andb_true_iff in Hlow as [?%N.leb_le ?%N.leb_le].
  replace ((97 <=? c - 32) && (c - 32 <=? 122)) with false; [done|].
  symmetry. apply andb_false_iff. left. apply N.leb_gt. lia.
Qed.

Lemma filter_all {A} (P : A → Prop) `{∀ x, Decision (P x)} (l : list A) :
  Forall P l → filter P l = l.
Proof.
  induction 1 as [|x l Hx _ IH]; [done|].
  rewrite filter_cons_True by done. by rewrite IH.
Qed.

(** The characters of a formatted plate, without the dash. *)
Lemma formatPlate_chars (value : jsstring) :
  filter (λ c, isAlnum c = true) (formatPlate value)
  = take 6 (toUpperCase (filter (λ c, isAlnum c = true) value)).
Proof.
  unfold formatPlate.
  pose proof (clean_plate_alnum value) as Hall.
  set (clean := take 6 _) in *.
  assert (Hlen : (length clean ≤ 6)%nat)
    by (subst clean; rewrite length_take; lia).
  rewrite !filter_app.
  rewrite (filter_all _ (take 3 clean)) by by apply Forall_take.
  rewrite (filter_all _ (take 3 (drop 3 clean)))
    by by apply Forall_take, Forall_drop.
  replace (filter (λ c, isAlnum c = true)
             (if (3 <? length clean)%nat then str "-" else [])) with (@nil N)
    by by destruct (3 <? length clean)%nat.
  simpl. rewrite take_take_drop. apply take_ge. lia.
Qed.

Lemma clean_plate_upper (value : jsstring) :
  let clean := take 6 (toUpperCase (filter (λ c, isAlnum c = true) value)) in
  toUpperCase clean = clean.
Proof.
  intros clean. pose proof (clean_plate_alnum value) as Hall. fold clean in Hall.
  unfold toUpperCase at 1.
  replace (forallb isAscii clean) with true.
  - subst clean. unfold toUpperCase.
    replace (forallb isAscii (filter (λ c, isAlnum c = true) value)) with true.
    + rewrite <- fmap_take. rewrite <- list_fmap_compose.
      apply list_fmap_ext. intros i c _. simpl. apply upperAscii_idem.
    + symmetry. apply forallb_forall. intros c Hc.
      apply list_elem_of_In, list_elem_of_filter in Hc as [Hc _].
      by apply alnum_facts.
  - symmetry. apply forallb_forall. intros c Hc.
    apply list_elem_of_In in Hc. eapply Forall_forall in Hall; [|exact Hc].
    by apply alnum_facts.
Qed.

Lemma toUpperCase_alnum (value : jsstring) :
  toUpperCase (filter (λ c, isAlnum c = true) value)
  = upperAscii <$> filter (λ c, isAlnum c = true) value.
Proof.
  unfold toUpperCase.
  replace (forallb isAscii (filter (λ c, isAlnum c = true) value)) with true;
    [done|].
  symmetry. apply forallb_forall. intros c Hc.
  apply list_elem_of_In, list_elem_of_filter in Hc as [Hc _].
  by apply alnum_facts.
Qed.

Lemma upper_of_alnum c :
  isAlnum c = true → isUpperAZ (upperAscii c) || isDigit (upperAscii c) = true.
Proof.
  unfold isAlnum, upperAscii, isUpperAZ, isLowerAZ, isDigit, inRange.
  intros Hc.
  assert (Hr : 65 ≤ c ≤ 90 ∨ 97 ≤ c ≤ 122 ∨ 48 ≤ c ≤ 57).
  { rewrite !orb_true_iff, !andb_true_iff, !N.leb_le in Hc. lia. }
  clear Hc. destruct ((97 <=? c) && (c <=? 122)) eqn:Hlow.
  - apply andb_true_iff in Hlow as [?%N.leb_le ?%N.leb_le].
    rewrite !orb_true_iff, !andb_true_iff, !N.leb_le. lia.
  - apply andb_false_iff in Hlow.
    rewrite !N.leb_gt in Hlow.
    rewrite !orb_true_iff, !andb_true_iff, !N.leb_le. lia.
Qed.

(** X1. Formatting a formatted plate changes nothing: what the input
    shows and what [formattedPlate] recomputes from it agree. *)
Theorem formatPlate_idempotent (value : jsstring) :
  formatPlate (formatPlate value) = formatPlate value.
Proof.
  assert (Hclean :
    take 6 (toUpperCase (filter (λ c, isAlnum c = true) (formatPlate value)))
    = take 6 (toUpperCase (filter (λ c, isAlnum c = true) value))).
  { rewrite formatPlate_chars, (clean_plate_upper value).
    apply take_ge. rewrite length_take. lia. }
  unfold formatPlate at 1. rewrite Hclean. reflexivity.
Qed.

Lemma formatPlate_length (value : jsstring) :
  (length (formatPlate value) ≤ 7)%nat
  ∧ (length (formatPlate value) = 7%nat
     ↔ length (removeDash (formatPlate value)) = 6%nat).
Proof.
  rewrite removeDash_formatPlate.
  unfold formatPlate. set (clean := take 6 _) in *.
  assert (Hlen : (length clean ≤ 6)%nat)
    by (subst clean; rewrite length_take; lia).
  rewrite !length_app, !length_take, length_drop.
  destruct (3 <? length clean)%nat eqn:H3.
  - apply Nat.ltb_lt in H3. change (length (str "-")) with 1%nat.
    split; [lia | split; lia].
  - apply Nat.ltb_ge in H3. change (length (@nil N)) with 0%nat.
    split; [lia | split; lia].
Qed.

(** X2. A formatted plate has at most 7 characters; it has exactly 7
    when, and only when, the plate without its dash has 6, so that the
    completeness test of [handleConsult] and the length test of
    [fetchService] accept the same plates. Without the dash the plate is
    made of digits and capital letters. *)
Theorem formatPlate_shape (value : jsstring) :
  (length (formatPlate value) ≤ 7)%nat
  ∧ (length (formatPlate value) = 7%nat
     ↔ length (removeDash (formatPlate value)) = 6%nat)
  ∧ Forall (λ c, isUpperAZ c || isDigit c = true) (removeDash (formatPlate value)).
Proof.
  destruct (formatPlate_length value) as [Hle Hiff].
  split; [done|]. split; [done|].
  rewrite removeDash_formatPlate. apply Forall_take.
  rewrite toUpperCase_alnum.
  apply Forall_fmap, Forall_forall. intros c Hc. simpl.
  apply list_elem_of_filter in Hc as [Hc _]. by apply upper_of_alnum.
Qed.

End InputFormatting.

Section InputCards.
Context `{Engine}.

(** X3. Formatting a document keeps its first 8 digits and nothing
    else, and formatting it again changes nothing. *)
Theorem formatDni_idempotent (value : jsstring) :
  formatDni (formatDni value) = formatDni value
  ∧ formatDni value = take 8 (filter (λ c, isDigit c = true) value)
  ∧ Forall (λ c, isDigit c = true) (formatDni value)
  ∧ (length (formatDni value) ≤ 8)%nat.
Proof.
  destruct (formatDni_digits value) as [Hall Hlen].
  split; [|by repeat split].
  unfold formatDni at 1. rewrite filter_all by done.
  apply take_ge. done.
Qed.

Lemma take_padEnd n c (s : jsstring) :
  (length s ≤ n)%nat →
  take n (padEnd n c s) = s ++ replicate (n - length s) c
  ∧ length (take n (padEnd n c s)) = n.
Proof.
  intros Hlen. unfold padEnd.
  assert (Htot : length (s ++ replicate (n - length s) c) = n)
    by (rewrite length_app, length_replicate; lia).
  rewrite take_ge by lia. done.
Qed.

(** X4. The plate card always shows 6 boxes and the document card 8:
    the characters typed so far, then blanks. *)
Theorem display_boxes (value : jsstring) :
  (length (plateDisplayChars value) = 6%nat
   ∧ plateDisplayChars value
     = removeDash (formatPlate value)
       ++ replicate (6 - length (removeDash (formatPlate value))) 32)
  ∧ (length (dniDisplayChars value) = 8%nat
     ∧ dniDisplayChars value
       = formatDni value ++ replicate (8 - length (formatDni value)) 32).
Proof.
  unfold plateDisplayChars, dniDisplayChars.
  rewrite formatPlate_chars, removeDash_formatPlate.
  split.
  - destruct (take_padEnd 6 32
                (take 6 (toUpperCase (filter (λ c, isAlnum c = true) value))))
      as [Heq Hlen]; [rewrite length_take; lia | done].
  - destruct (take_padEnd 8 32 (formatDni value)) as [Heq Hlen]; [|done].
    apply formatDni_digits.
Qed.

End InputCards.

Section Handlers.
Context `{Engine}.

Lemma vehicle_keys :
  filter (λ k, match scope <$> serviceConfigs k with
               | Some Vehiculo => true
               | _ => false
               end = true) (map fst serviceTable)
  = [str "soat"; str "itv"; str "satlima"; str "satcallao"; str "sutran";
     str "sunarp"].
Proof. reflexivity. Qed.

Lemma person_keys :
  filter (λ k, match scope <$> serviceConfigs k with
               | Some Persona => true
               | _ => false
               end = true) (map fst serviceTable)
  = [str "licencia"; str "dniperu"; str "redam"].
Proof. reflexivity. Qed.

Lemma vehicle_configs k :
  k ∈ [str "soat"; str "itv"; str "satlima"; str "satcallao"; str "sutran";
       str "sunarp"] →
  ∃ config, serviceConfigs k = Some config
            ∧ field config = Placa ∧ scope config = Vehiculo.
Proof.
  intros Hk. repeat (apply elem_of_cons in Hk as [-> | Hk]);
    [| | | | | | by apply elem_of_nil in Hk]; eexists; repeat split.
Qed.

Lemma person_configs k :
  k ∈ [str "licencia"; str "dniperu"; str "redam"] →
  ∃ config, serviceConfigs k = Some config
            ∧ field config = Dni ∧ scope config = Persona.
Proof.
  intros Hk. repeat (apply elem_of_cons in Hk as [-> | Hk]);
    [| | | by apply elem_of_nil in Hk]; eexists; repeat split.
Qed.

(** A forced issue that the gate and the length test let through: it
    stops at the in-flight test or calls the transport. *)
Lemma forced_call scr env key value config :
  serviceConfigs key = Some config →
  hasCredits (usage scr) = true →
  tooShort config value = false →
  let out := fetchService scr env key (Some value) (Some (Some true)) in
  (inFlight (serviceState scr !! key) = true → trace out = [])
  ∧ (inFlight (serviceState scr !! key) = false →
     ∃ more, transportCalls (trace out) = requestOf config value :: more).
Proof.
  intros Hcfg Hcred Hlen out. subst out. split; intros Hfly.
  - unfold fetchService, guardCredits. rewrite Hcfg, Hcred. simpl.
    rewrite Hlen, Hfly. done.
  - rewrite (fetchService_issued scr env key (Some value) (Some (Some true)) config)
      by done.
    simpl. eauto.
Qed.

(** X5. [handleConsult] tests the plate before the credits: an
    incomplete plate gives the alert of the plate and nothing else, even
    with the quota exhausted. A complete plate with the quota exhausted
    gives the quota alert alone. Otherwise the batch issues one forced
    query per vehicle service, all with the plate without its dash, and
    each of them reaches the transport unless a call for its service is
    in flight. *)
Theorem handleConsult_checks scr envs :
  let plate := removeDash (formattedPlate scr) in
  (length plate ≠ 6%nat → handleConsult scr envs = ([PLACA_INCOMPLETA], []))
  ∧ (length plate = 6%nat → hasCredits (usage scr) = false →
     handleConsult scr envs = ([SIN_CREDITOS], []))
  ∧ (length plate = 6%nat → hasCredits (usage scr) = true →
     (handleConsult scr envs).1 = [Haptic]
     ∧ (handleConsult scr envs).2.*1
       = [str "soat"; str "itv"; str "satlima"; str "satcallao"; str "sutran";
          str "sunarp"]
     ∧ ∀ k out, (k, out) ∈ (handleConsult scr envs).2 →
         out = fetchService scr (envs k) k (Some plate) (Some (Some true))
         ∧ ∃ config, serviceConfigs k = Some config ∧ scope config = Vehiculo
             ∧ (inFlight (serviceState scr !! k) = true → trace out = [])
             ∧ (inFlight (serviceState scr !! k) = false →
                ∃ more, transportCalls (trace out)
                        = requestOf config plate :: more)).
Proof.
  intros plate. unfold handleConsult, guardCredits.
  destruct (formatPlate_length (plateInput scr)) as [Hle Hiff].
  fold (formattedPlate scr) in Hle, Hiff. fold plate in Hiff.
  assert (Hshort : negb (nonEmpty (formattedPlate scr))
                   || (length (formattedPlate scr) <? 7)%nat
                   = negb (length plate =? 6)%nat).
  { destruct (length plate =? 6)%nat eqn:H6.
    - apply Nat.eqb_eq, Hiff in H6. apply orb_false_iff. split.
      + by destruct (formattedPlate scr).
      + apply Nat.ltb_ge. lia.
    - apply Nat.eqb_neq in H6. apply orb_true_iff. right.
      apply Nat.ltb_lt.
      assert (length (formattedPlate scr) ≠ 7%nat) by (by intros ?%Hiff).
      lia. }
  rewrite Hshort. split; [|split].
  - intros Hne. by apply Nat.eqb_neq in Hne as ->.
  - intros ->%Nat.eqb_eq ->. done.
  - intros Hsix%Nat.eqb_eq Hcred. rewrite Hsix, Hcred. simpl.
    unfold fetchAllVehicleServices. rewrite vehicle_keys.
    split; [done|]. split; [done|].
    intros k out Hin. apply list_elem_of_fmap in Hin as (k' & [= -> ->] & Hk).
    split; [done|].
    destruct (vehicle_configs k' Hk) as (config & Hcfg & Hfield & Hscope).
    exists config. split; [done|]. split; [done|].
    apply forced_call; [done | done |].
    unfold tooShort, minLength. rewrite Hfield.
    apply Nat.eqb_eq in Hsix. fold plate. rewrite Hsix.
    by destruct plate.
Qed.

(** X6. [handlePersonConsult] tests the document before the credits: a
    document that does not have 8 digits gives the alert of the document
    and nothing else. Otherwise, credits permitting, the batch issues one
    forced query per person service with the 8 digits, and each of them
    reaches the transport unless a call for its service is in flight. *)
Theorem handlePersonConsult_checks scr envs :
  let doc := formatDni (personaDoc scr) in
  (length doc ≠ 8%nat →
   handlePersonConsult scr envs = ([DOCUMENTO_INCOMPLETO], []))
  ∧ (length doc = 8%nat → hasCredits (usage scr) = false →
     handlePersonConsult scr envs = ([SIN_CREDITOS], []))
  ∧ (length doc = 8%nat → hasCredits (usage scr) = true →
     (handlePersonConsult scr envs).1 = [Haptic]
     ∧ (handlePersonConsult scr envs).2.*1
       = [str "licencia"; str "dniperu"; str "redam"]
     ∧ ∀ k out, (k, out) ∈ (handlePersonConsult scr envs).2 →
         out = fetchService scr (envs k) k (Some doc) (Some (Some true))
         ∧ ∃ config, serviceConfigs k = Some config ∧ scope config = Persona
             ∧ (inFlight (serviceState scr !! k) = true → trace out = [])
             ∧ (inFlight (serviceState scr !! k) = false →
                ∃ more, transportCalls (trace out)
                        = requestOf config doc :: more)).
Proof.
  intros doc. unfold handlePersonConsult, guardCredits. fold doc.
  split; [|split].
  - intros Hne. by apply Nat.eqb_neq in Hne as ->.
  - intros ->%Nat.eqb_eq ->. done.
  - intros Hlen Hcred. rewrite (proj2 (Nat.eqb_eq _ _) Hlen), Hcred. simpl.
    unfold fetchAllPersonServices. rewrite person_keys. fold doc.
    split; [done|]. split; [done|].
    intros k out Hin. apply list_elem_of_fmap in Hin as (k' & [= -> ->] & Hk).
    split; [done|].
    destruct (person_configs k' Hk) as (config & Hcfg & Hfield & Hscope).
    exists config. split; [done|]. split; [done|].
    apply forced_call; [done | done |].
    unfold tooShort, minLength. rewrite Hfield, Hlen. by destruct doc.
Qed.

End Handlers.

Section StateMachine.
Context `{Engine}.

Lemma stateUpdates_app (a b : list Event) :
  stateUpdates (a ++ b) = stateUpdates a ++ stateUpdates b.
Proof. unfold stateUpdates. apply omap_app. Qed.

Lemma stateUpdates_fetches (sent : list Request) :
  stateUpdates (map Fetch sent) = [].
Proof. induction sent as [|r sent IH]; simpl; done. Qed.

(** The services of the store after a trace: its state updates applied
    in order. *)
Lemma runTrace_services st events :
  st_serviceState (runTrace st events)
  = foldl (λ m kp, setService kp.1 kp.2 m) (st_serviceState st)
          (stateUpdates events).
Proof.
  revert st. induction events as [|e events IH]; intros st; [done|].
  unfold runTrace in *. simpl. rewrite IH. by destruct e.
Qed.

Lemma logAttempt_no_updates scr env key config queryValue a :
  stateUpdates (trace (logAttempt scr env key config queryValue a)) = [].
Proof.
  unfold logAttempt. destruct (sessionUser scr); [|done].
  destruct (registerConsulta env _); [|done]. simpl.
  apply refreshUsage_no_calls.
Qed.

(** Every call of [fetchService] is stopped by a guard, with at most an
    alert, or goes through the two transitions of its service. *)
Lemma fetchService_updates scr env key value opts :
  stateUpdates (trace (fetchService scr env key value opts)) = []
  ∨ ∃ config,
      serviceConfigs key = Some config
      ∧ hasCredits (usage scr) = true
      ∧ tooShort config (queryValueOf scr config value) = false
      ∧ negb (forced opts)
        && cacheHit (serviceState scr !! key) (queryValueOf scr config value)
        = false
      ∧ inFlight (serviceState scr !! key) = false
      ∧ stateUpdates (trace (fetchService scr env key value opts))
        = [(key, loadingUpdate (queryValueOf scr config value));
           (key, settle env (queryValueOf scr config value)
                   (attempt env key config
                      (respond env
                         (requestOf config (queryValueOf scr config value)))))].
Proof.
  destruct (serviceConfigs key) as [config|] eqn:Hcfg.
  2: { left. unfold fetchService. by rewrite Hcfg. }
  destruct (hasCredits (usage scr)) eqn:Hcred.
  2: { left. unfold fetchService, guardCredits. by rewrite Hcfg, Hcred. }
  destruct (tooShort config (queryValueOf scr config value)) eqn:Hlen.
  { left. unfold fetchService, guardCredits. rewrite Hcfg, Hcred. simpl.
    rewrite Hlen. by destruct (field config). }
  destruct (negb (forced opts)
            && cacheHit (serviceState scr !! key) (queryValueOf scr config value))
    eqn:Hcache.
  { left. unfold fetchService, guardCredits. rewrite Hcfg, Hcred. simpl.
    by rewrite Hlen, Hcache. }
  destruct (inFlight (serviceState scr !! key)) eqn:Hfly.
  { left. unfold fetchService, guardCredits. rewrite Hcfg, Hcred. simpl.
    by rewrite Hlen, Hcache, Hfly. }
  right. exists config. repeat split; try done.
  rewrite (fetchService_issued scr env key value opts config) by done.
  simpl. rewrite !stateUpdates_app, stateUpdates_fetches. simpl.
  by rewrite logAttempt_no_updates.
Qed.

(** X7. A call of [fetchService] never touches the state of another
    service: whatever the call does, the store holds for every other key
    what it held before. *)
Theorem fetchService_isolated scr env key value opts st other :
  other ≠ key →
  st_serviceState (runTrace st (trace (fetchService scr env key value opts)))
    !! other
  = st_serviceState st !! other.
Proof.
  intros Hne. rewrite runTrace_services.
  destruct (fetchService_updates scr env key value opts)
    as [-> | (config & _ & _ & _ & _ & _ & ->)]; [done|].
  simpl. unfold setService. by rewrite !lookup_insert_ne.
Qed.

(** The state a call that went through leaves for its service. *)
Lemma fetchService_final scr env key value opts config st :
  serviceConfigs key = Some config →
  hasCredits (usage scr) = true →
  tooShort config (queryValueOf scr config value) = false →
  negb (forced opts)
  && cacheHit (serviceState scr !! key) (queryValueOf scr config value) = false →
  inFlight (serviceState scr !! key) = false →
  let queryValue := queryValueOf scr config value in
  let a := attempt env key config (respond env (requestOf config queryValue)) in
  st_serviceState (runTrace st (trace (fetchService scr env key value opts)))
    !! key
  = Some {| loading := false;
            error := match att_result a with
                     | Return _ => None
                     | Throw m => Some (default (str "Error consultando") m)
                     end;
            data := match att_result a with
                    | Return _ => att_data a
                    | Throw _ => JNull
                    end;
            parsed := match att_result a with
                      | Return p => Some p
                      | Throw _ => Some PNull
                      end;
            query := Some queryValue;
            fetchedAt := Some (settledAt env) |}.
Proof.
  intros Hcfg Hcred Hlen Hcache Hfly queryValue a.
  rewrite runTrace_services.
  destruct (fetchService_updates scr env key value opts)
    as [Hnone | (config' & Hcfg' & _ & _ & _ & _ & ->)].
  - rewrite (fetchService_issued scr env key value opts config) in Hnone by done.
    discriminate Hnone.
  - rewrite Hcfg in Hcfg'. injection Hcfg' as <-. simpl.
    unfold setService. rewrite lookup_insert_eq. f_equal.
    fold queryValue. fold a. unfold settle, merge.
    by destruct (att_result a).
Qed.

(** X8. A call that no guard stops leaves its service settled, whatever
    the store held for it: not loading, with the query value and the time
    of the settlement, and either the decoded response and its record
    without error, or the error message with the response and the record
    cleared. *)
Theorem fetchService_settles scr env key value opts config st :
  serviceConfigs key = Some config →
  hasCredits (usage scr) = true →
  tooShort config (queryValueOf scr config value) = false →
  negb (forced opts)
  && cacheHit (serviceState scr !! key) (queryValueOf scr config value) = false →
  inFlight (serviceState scr !! key) = false →
  let queryValue := queryValueOf scr config value in
  let a := attempt env key config (respond env (requestOf config queryValue)) in
  ∃ s,
    st_serviceState (runTrace st (trace (fetchService scr env key value opts)))
      !! key = Some s
    ∧ loading s = false
    ∧ query s = Some queryValue
    ∧ fetchedAt s = Some (settledAt env)
    ∧ match att_result a with
      | Return p => error s = None ∧ data s = att_data a ∧ parsed s = Some p
      | Throw m =>
          error s = Some (default (str "Error consultando") m)
          ∧ data s = JNull ∧ parsed s = Some PNull
      end.
Proof.
  intros Hcfg Hcred Hlen Hcache Hfly queryValue a.
  eexists. split.
  - by apply (fetchService_final scr env key value opts config st).
  - fold queryValue. fold a. simpl. by destruct (att_result a).
Qed.

(** X9. A failure of the transport, of the decoding or of the
    normaliser never makes [fetchService] reject: the promise rejects
    only when a user is signed in and the ledger write or the refresh of
    the usage rejects. *)
Theorem fetchService_rejects_only_on_billing scr env key value opts :
  rejected (fetchService scr env key value opts) = true →
  ∃ user, sessionUser scr = Some user
    ∧ ((∃ entry, In entry (ledgerWrites (trace (fetchService scr env key value opts)))
                 ∧ is_resolved (registerConsulta env entry) = None)
       ∨ is_resolved (getUsageSnapshot env user) = None).
Proof.
  intros Hrej.
  destruct (serviceConfigs key) as [config|] eqn:Hcfg.
  2: { unfold fetchService in Hrej. by rewrite Hcfg in Hrej. }
  destruct (hasCredits (usage scr)) eqn:Hcred.
  2: { unfold fetchService, guardCredits in Hrej.
       by rewrite Hcfg, Hcred in Hrej. }
  destruct (tooShort config (queryValueOf scr config value)) eqn:Hlen.
  { unfold fetchService, guardCredits in Hrej. rewrite Hcfg, Hcred in Hrej.
    simpl in Hrej. by rewrite Hlen in Hrej. }
  destruct (negb (forced opts)
            && cacheHit (serviceState scr !! key) (queryValueOf scr config value))
    eqn:Hcache.
  { unfold fetchService, guardCredits in Hrej. rewrite Hcfg, Hcred in Hrej.
    simpl in Hrej. by rewrite Hlen, Hcache in Hrej. }
  destruct (inFlight (serviceState scr !! key)) eqn:Hfly.
  { unfold fetchService, guardCredits in Hrej. rewrite Hcfg, Hcred in Hrej.
    simpl in Hrej. by rewrite Hlen, Hcache, Hfly in Hrej. }
  rewrite (fetchService_issued scr env key value opts config) in Hrej |- * by done.
  simpl in Hrej |- *.
  rewrite !ledgerWrites_app, ledgerWrites_fetches. simpl.
  unfold logAttempt in *. destruct (sessionUser scr) as [user|] eqn:Huser; [|done].
  exists user. split; [done|].
  destruct (registerConsulta env _) eqn:Hreg; simpl in *.
  - right. unfold refreshUsage in Hrej. rewrite Huser in Hrej.
    by destruct (getUsageSnapshot env user).
  - left. eexists. split; [by left|]. by rewrite Hreg.
Qed.

(** X10. What is logged agrees with what is stored: the entry of a call
    carries the error message its service is left with, and is a success
    exactly when the service is left without error; a failed call logs
    the decoded response when there was one, while the state keeps none. *)
Theorem ledger_agrees_with_state scr env key value opts config st entry :
  serviceConfigs key = Some config →
  hasCredits (usage scr) = true →
  tooShort config (queryValueOf scr config value) = false →
  negb (forced opts)
  && cacheHit (serviceState scr !! key) (queryValueOf scr config value) = false →
  inFlight (serviceState scr !! key) = false →
  In entry (ledgerWrites (trace (fetchService scr env key value opts))) →
  ∃ s,
    st_serviceState (runTrace st (trace (fetchService scr env key value opts)))
      !! key = Some s
    ∧ errorCode entry = error s
    ∧ (success entry = true ↔ error s = None)
    ∧ (success entry = true → respuesta entry = data s)
    ∧ (success entry = false → data s = JNull)
    ∧ Some (payload entry).2 = query s.
Proof.
  intros Hcfg Hcred Hlen Hcache Hfly Hin.
  eexists. split.
  { by apply (fetchService_final scr env key value opts config st). }
  rewrite (fetchService_issued scr env key value opts config) in Hin by done.
  simpl in Hin. rewrite !ledgerWrites_app, ledgerWrites_fetches in Hin.
  simpl in Hin. unfold logAttempt in Hin.
  destruct (sessionUser scr) as [user|]; [|done].
  assert (Hentry : entry = ledgerEntry scr env user key config
                             (queryValueOf scr config value)
                             (attempt env key config
                                (respond env
                                   (requestOf config (queryValueOf scr config value))))).
  { destruct (registerConsulta env _); simpl in Hin.
    - destruct Hin as [<- | Hin]; [done|].
      rewrite (proj1 (proj2 (refreshUsage_no_calls scr env))) in Hin. done.
    - by destruct Hin as [<- | []]. }
  subst entry. unfold ledgerEntry. simpl.
  destruct (att_result _); repeat split; done.
Qed.

(** X11. Nothing but a settled success for the same query value is
    served from the cache: when the state of the service holds no data,
    holds an error, or holds another query value, an issue that the gate
    and the length test let through calls the transport, forced or not. *)
Theorem only_success_is_cached scr env key value opts config current :
  serviceConfigs key = Some config →
  hasCredits (usage scr) = true →
  tooShort config (queryValueOf scr config value) = false →
  serviceState scr !! key = Some current →
  loading current = false →
  truthy (data current) = false ∨ present (error current) = true
  ∨ query current ≠ Some (queryValueOf scr config value) →
  ∃ more,
    transportCalls (trace (fetchService scr env key value opts))
    = requestOf config (queryValueOf scr config value) :: more.
Proof.
  intros Hcfg Hcred Hlen Hcur Hload Hmiss.
  rewrite (fetchService_issued scr env key value opts config); try done.
  - simpl. eauto.
  - rewrite Hcur. unfold cacheHit. rewrite Hload.
    destruct Hmiss as [-> | [-> | Hq]].
    + by rewrite !andb_false_r.
    + by rewrite !andb_false_r.
    + by rewrite bool_decide_eq_false_2, !andb_false_r.
  - by rewrite Hcur.
Qed.

(** X12. Issue, render, issue again: after a call that settled with a
    truthy decoded response, a call that is not forced, made from the
    next render with the same query value, calls no transport, writes no
    ledger entry and updates no state. *)
Theorem second_issue_is_served_from_cache
    scr env key value opts config st env' opts' :
  serviceConfigs key = Some config →
  hasCredits (usage scr) = true →
  tooShort config (queryValueOf scr config value) = false →
  negb (forced opts)
  && cacheHit (serviceState scr !! key) (queryValueOf scr config value) = false →
  inFlight (serviceState scr !! key) = false →
  let a := attempt env key config
             (respond env (requestOf config (queryValueOf scr config value))) in
  is_Some (match att_result a with Return p => Some p | Throw _ => None end) →
  truthy (att_data a) = true →
  forced opts' = false →
  let next := rerender scr
                (runTrace st (trace (fetchService scr env key value opts))) in
  let again := fetchService next env' key value opts' in
  transportCalls (trace again) = []
  ∧ ledgerWrites (trace again) = []
  ∧ stateUpdates (trace again) = [].
Proof.
  intros Hcfg Hcred Hlen Hcache Hfly a Hok Hdata Hforce next again.
  pose proof (fetchService_final scr env key value opts config st
                Hcfg Hcred Hlen Hcache Hfly) as Hfinal.
  simpl in Hfinal. fold a in Hfinal.
  destruct (att_result a) as [p|m] eqn:Hres; [|by destruct Hok].
  destruct (fetchService_stopped next env' key value opts') as (alerts & Hout & Hal).
  { right; right. exists config. split; [done|]. right; left.
    rewrite Hforce. simpl.
    change (serviceState next !! key)
      with (st_serviceState
              (runTrace st (trace (fetchService scr env key value opts))) !! key).
    rewrite Hfinal. unfold cacheHit. simpl.
    rewrite Hdata, bool_decide_eq_true_2; done. }
  subst again. rewrite Hout. simpl.
  destruct (stopped_trace_inert alerts Hal) as (? & ? & ? & ?). done.
Qed.

End StateMachine.

Section Lookups.
Context `{Engine}.

Lemma usableDni_shape prop dni :
  usableDni prop = Some dni →
  length dni = 8%nat ∧ Forall (λ c, isDigit c = true) dni.
Proof.
  unfold usableDni. cbv zeta.
  destruct (formatDni_digits (default [] (owner_documento prop))) as [Hall Hle].
  set (found := formatDni _) in *.
  destruct (length found <? 8)%nat eqn:Hshort.
  - by rewrite orb_true_r.
  - apply Nat.ltb_ge in Hshort.
    destruct (negb (nonEmpty found)); [done|]. intros [= <-].
    split; [lia | done].
Qed.

Lemma omap_length_le {A B} (f : A → option B) (l : list A) :
  (length (omap f l) ≤ length l)%nat.
Proof.
  induction l as [|x l IH]; [done|].
  change (omap f (x :: l))
    with (match f x with Some y => y :: omap f l | None => omap f l end).
  destruct (f x); simpl; lia.
Qed.

Lemma dniperu_config :
  ∃ config, serviceConfigs (str "dniperu") = Some config
    ∧ endpoint config = str "http://localhost:8000/consulta-dni-peru"
    ∧ field config = Dni.
Proof. eexists. repeat split. Qed.

(** X13. Every identity lookup the enricher issues goes to the endpoint
    of the identity service with a document of exactly 8 digits; there is
    at most one lookup per owner, and none without a record. *)
Theorem enricher_lookups_shape answers parsed :
  let sent := (enrichSunarpWithDni answers parsed).2 in
  Forall (λ r, req_endpoint r = str "http://localhost:8000/consulta-dni-peru"
               ∧ req_field r = str "dni"
               ∧ length (req_value r) = 8%nat
               ∧ Forall (λ c, isDigit c = true) (req_value r)) sent
  ∧ (length sent ≤ length (sunarpOwnersOf parsed))%nat.
Proof.
  unfold sunarpOwnersOf. destruct parsed as [d|]; [|by split].
  unfold enrichSunarpWithDni.
  destruct (negb (nonEmpty (sunarp_propietarios d))); [by split; [|simpl; lia]|].
  destruct dniperu_config as (dniConfig & -> & Hend & Hfield).
  rewrite Hend. simpl.
  pose proof (enrichOwners_sent dniConfig answers 0 (sunarp_propietarios d))
    as Hsent.
  destruct (enrichOwners dniConfig answers 0 (sunarp_propietarios d))
    as [owners sent].
  simpl in *. subst sent. split.
  - apply Forall_forall. intros r Hr.
    apply list_elem_of_omap in Hr as (prop & _ & Hprop).
    destruct (usableDni prop) as [dni|] eqn:Hdni; [|done].
    injection Hprop as <-. destruct (usableDni_shape prop dni Hdni).
    unfold requestOf. simpl. rewrite Hend, Hfield. repeat split; done.
  - apply omap_length_le.
Qed.

(** X14. A query of any service but the ownership one makes exactly one
    transport call; the ownership query makes its own call first, and
    identity lookups only after a response that decoded and
    normalised. *)
Theorem transport_calls_of_issue scr env key value opts config :
  serviceConfigs key = Some config →
  hasCredits (usage scr) = true →
  tooShort config (queryValueOf scr config value) = false →
  negb (forced opts)
  && cacheHit (serviceState scr !! key) (queryValueOf scr config value) = false →
  inFlight (serviceState scr !! key) = false →
  let request := requestOf config (queryValueOf scr config value) in
  let a := attempt env key config (respond env request) in
  let calls := transportCalls (trace (fetchService scr env key value opts)) in
  calls = request :: att_sent a
  ∧ (key ≠ str "sunarp" → calls = [request])
  ∧ (is_Some (match att_result a with Throw m => Some m | Return _ => None end) →
     calls = [request]).
Proof.
  intros Hcfg Hcred Hlen Hcache Hfly request a calls. subst calls.
  rewrite (fetchService_issued scr env key value opts config) by done.
  fold request. fold a. simpl.
  rewrite !transportCalls_app, transportCalls_fetches. simpl.
  assert (Hlog : transportCalls
                   (trace (logAttempt scr env key config
                             (queryValueOf scr config value) a)) = []).
  { unfold logAttempt. destruct (sessionUser scr); [|done].
    destruct (registerConsulta env _); [|done]. simpl.
    apply refreshUsage_no_calls. }
  rewrite Hlog, app_nil_r. split; [done|].
  assert (Hsent : key ≠ str "sunarp"
                  ∨ is_Some (match att_result a with
                             | Throw m => Some m
                             | Return _ => None
                             end) → att_sent a = []).
  { subst a. unfold attempt.
    destruct (respond env request) as [m | status text json]; [done|].
    destruct (negb (ok status)); [by destruct text|].
    destruct json as [body|m]; [|done].
    destruct (runParser config _ body) as [p|m]; [|done].
    intros [Hne | Hthrow].
    - unfold streq. rewrite bool_decide_eq_false_2 by done. done.
    - destruct (streq key (str "sunarp")); [|by destruct Hthrow].
      destruct (enrichParsed env p). by destruct Hthrow. }
  split; intros Hcase; rewrite Hsent; auto.
Qed.

End Lookups.

Section OwnershipRecords.
Context `{Engine}.

Lemma forEachPush_Forall {A B} (P : B → Prop)
    (body : A → Completion (option B)) items pushed :
  (∀ x b, body x = Return (Some b) → P b) →
  forEachPush body items = Return pushed → Forall P pushed.
Proof.
  intros Hbody. revert pushed.
  induction items as [|x items IH]; intros pushed; simpl.
  - by intros [= <-].
  - destruct (body x) as [[b|]|] eqn:Hx; simpl; [| |done].
    + destruct (forEachPush body items) as [more|]; simpl; [|done].
      intros [= <-]. constructor; eauto.
    + destruct (forEachPush body items) as [more|]; simpl; [|done].
      intros [= <-]. eauto.
Qed.

Lemma forEachPush_length {A B} (body : A → Completion (option B)) items pushed :
  forEachPush body items = Return pushed → (length pushed ≤ length items)%nat.
Proof.
  revert pushed. induction items as [|x items IH]; intros pushed; simpl.
  - by intros [= <-].
  - destruct (body x) as [[b|]|]; simpl; [| |done];
      (destruct (forEachPush body items) as [more|]; simpl; [|done]);
      intros [= <-]; specialize (IH more eq_refl); simpl; lia.
Qed.

Lemma ownerOfRaw_named p owner : ownerOfRaw p = Return (Some owner) → named owner.
Proof.
  unfold ownerOfRaw, named. destruct (trimmedText _) as [documento|]; simpl; [|done].
  destruct (_ || _); [|done]. intros [= <-]. simpl.
  rewrite truthy_jsOr. apply orb_true_r.
Qed.

Lemma ownerOfDetalle_named p owner :
  ownerOfDetalle p = Return (Some owner) → named owner.
Proof.
  unfold ownerOfDetalle, named. destruct (joinTruthy _) as [partes|]; simpl; [|done].
  destruct (truthy (JStr partes ||| _)%js) eqn:Hname; [|done].
  destruct (trimmedText _); simpl; [|done]. by intros [= <-].
Qed.

Lemma coincidenciaOf_named nombre documento owner :
  coincidenciaOf nombre documento = Some owner → named owner.
Proof.
  unfold coincidenciaOf, named. destruct (_ || _); [|done]. intros [= <-]. simpl.
  rewrite truthy_jsOr. apply orb_true_r.
Qed.

Lemma coincidenciaOfRaw_named c owner :
  coincidenciaOfRaw c = Return (Some owner) → named owner.
Proof.
  unfold coincidenciaOfRaw. destruct (joinTruthy _); simpl; [|done].
  destruct (trimmedText _); simpl; [|done].
  intros [= Hc]. by eapply coincidenciaOf_named.
Qed.

Lemma coincidenciaOfBusqueda_named c owner :
  coincidenciaOfBusqueda c = Return (Some owner) → named owner.
Proof.
  unfold coincidenciaOfBusqueda. destruct (joinTruthy _); simpl; [|done].
  destruct (trimmedText _); simpl; [|done].
  intros [= Hc]. by eapply coincidenciaOf_named.
Qed.

(** The owners read from the raw text: at most three, each with a name
    and nothing else. *)
Lemma ownersOfText_shape raw owners :
  ownersOfText raw = Return owners →
  (length owners ≤ 3)%nat
  ∧ Forall (λ o, ∃ s, o = ownerNamed (JStr s) ∧ nonEmpty s = true) owners.
Proof.
  unfold ownersOfText. destruct raw; try done. intros [= <-]. split.
  - etransitivity; [apply omap_length_le|]. rewrite length_take. lia.
  - apply Forall_forall. intros o Ho.
    apply list_elem_of_omap in Ho as (linea & _ & Ho).
    destruct (nonEmpty (trim (removePropietario linea))) eqn:Hne; [|done].
    injection Ho as <-. eexists. split; done.
Qed.

(** X15. No owner without a name: in every record [parseSunarp]
    returns, each owner and each match has a truthy [nombre] (the name of
    the payload, or the placeholder when only a document was given). *)
Theorem parseSunarp_owners_named raw full d :
  parseSunarp raw full = Return (Some d) →
  Forall named (sunarp_propietarios d) ∧ Forall named (sunarp_coincidencias d).
Proof.
  unfold parseSunarp. intros Hparse. cbv zeta in Hparse.
  step_bind_as Hparse fromRaw Hraw.
  step_bind_as Hparse fromDetalle Hdetalle.
  step_bind_as Hparse fromCoincidencias Hcoincidencias.
  step_bind_as Hparse fromBusqueda Hbusqueda.
  step_bind_as Hparse propietarios Hpropietarios.
  step_bind_as Hparse dniPropietario Hdni.
  step_bind_as Hparse propietarioUsado Husado.
  match type of Hparse with
  | (if ?c then _ else _) = _ => destruct c; [discriminate Hparse|]
  end.
  injection Hparse as <-. simpl.
  assert (HfromRaw : Forall named fromRaw).
  { destruct (_ ||| _)%js as [| | | |s|items|] in Hraw;
      try (by injection Hraw as <-).
    - destruct (nonEmpty (trim s)) eqn:Hs; injection Hraw as <-; [|done].
      by repeat constructor.
    - eapply forEachPush_Forall; [|exact Hraw]. apply ownerOfRaw_named. }
  assert (HfromDetalle : Forall named fromDetalle).
  { destruct (_ ||| _)%js as [| | | | |items|] in Hdetalle;
      try (by injection Hdetalle as <-).
    eapply forEachPush_Forall; [|exact Hdetalle]. apply ownerOfDetalle_named. }
  assert (HfromC : Forall named fromCoincidencias).
  { destruct (_ ||| _)%js as [| | | | |items|] in Hcoincidencias;
      try (by injection Hcoincidencias as <-).
    eapply forEachPush_Forall; [|exact Hcoincidencias].
    apply coincidenciaOfRaw_named. }
  assert (HfromB : Forall named fromBusqueda).
  { destruct (_ ||| _)%js as [| | | | |items|] in Hbusqueda;
      try (by injection Hbusqueda as <-).
    eapply forEachPush_Forall; [|exact Hbusqueda].
    apply coincidenciaOfBusqueda_named. }
  split; [|by apply Forall_app].
  destruct (fromRaw ++ fromDetalle) as [|o found] eqn:Hfound.
  - destruct (ownersOfText_shape raw propietarios Hpropietarios) as [_ Htext].
    eapply Forall_impl; [exact Htext|]. by intros o (s & -> & Hs).
  - injection Hpropietarios as <-. rewrite <- Hfound. by apply Forall_app.
Qed.

(** X16. When the payload names no owner, the owners are read from the
    lines of the raw text that mention "propietario": at most three of
    them, each a name without document, share or condition. *)
Theorem parseSunarp_text_owners raw full d :
  truthy ((datosOf full)?."propietarios" ||| (datosOf full)?."titulares"
          ||| (datosOf full)?."propietario" ||| (datosOf full)?."titular")%js
  = false →
  truthy ((datosOf full)?."propietarios_detalle"
          ||| (datosOf full)?."propietariosDetalles")%js = false →
  parseSunarp raw full = Return (Some d) →
  ownersOfText raw = Return (sunarp_propietarios d)
  ∧ (length (sunarp_propietarios d) ≤ 3)%nat
  ∧ Forall (λ o, ∃ s, o = ownerNamed (JStr s) ∧ nonEmpty s = true)
           (sunarp_propietarios d).
Proof.
  intros Hnone Hdet. unfold parseSunarp. intros Hparse. cbv zeta in Hparse.
  assert (Hraw0 : ((datosOf full)?."propietarios" ||| (datosOf full)?."titulares"
                   ||| (datosOf full)?."propietario" ||| (datosOf full)?."titular"
                   ||| JArr [])%js = JArr []).
  { unfold jsOr at 1. by rewrite Hnone. }
  assert (Hdet0 : ((datosOf full)?."propietarios_detalle"
                   ||| (datosOf full)?."propietariosDetalles" ||| JArr [])%js
                  = JArr []).
  { unfold jsOr at 1. by rewrite Hdet. }
  rewrite Hraw0, Hdet0 in Hparse. cbn [forEachPush mbind completion_bind] in Hparse.
  step_bind_as Hparse fromCoincidencias Hcoincidencias.
  step_bind_as Hparse fromBusqueda Hbusqueda.
  cbn [app] in Hparse.
  step_bind_as Hparse propietarios Hpropietarios.
  step_bind_as Hparse dniPropietario Hdni.
  step_bind_as Hparse propietarioUsado Husado.
  match type of Hparse with
  | (if ?c then _ else _) = _ => destruct c; [discriminate Hparse|]
  end.
  injection Hparse as <-. simpl. split; [done|].
  by apply (ownersOfText_shape raw).
Qed.

End OwnershipRecords.

Section OwnerLines.
Context `{Engine}.

Lemma ownerLine_cases owner :
  if isTextName (owner_nombre owner)
  then ∃ line, ownerLine owner = Return line
  else ownerLine owner = typeError.
Proof.
  unfold ownerLine, trimmedName.
  destruct (owner_nombre owner); simpl; try done;
    match goal with |- context [if ?c then _ else _] => destruct c end; eauto.
Qed.

Lemma forEachPush_returns {A B} (body : A → Completion (option B)) items :
  Forall (λ x, ∃ r, body x = Return r) items →
  ∃ pushed, forEachPush body items = Return pushed.
Proof.
  induction 1 as [|x items [r Hx] _ [more IH]]; simpl; [eauto|].
  rewrite Hx, IH. simpl. eauto.
Qed.

Lemma forEachPush_throws {A B} (body : A → Completion (option B)) items :
  Forall (λ x, (∃ r, body x = Return r) ∨ body x = typeError) items →
  Exists (λ x, body x = typeError) items →
  forEachPush body items = typeError.
Proof.
  induction 1 as [|x items Hx Hall IH]; intros Hex.
  - by apply Exists_nil in Hex.
  - simpl. destruct Hx as [[r Hx] | Hx]; rewrite Hx; simpl; [|done].
    apply Exists_cons in Hex as [Hex | Hex];
      [rewrite Hx in Hex; discriminate Hex|].
    by rewrite (IH Hex).
Qed.

(** X17. The lines of the owners shown on the screen: when every name
    is a string (or absent) there is at most one line per owner, none of
    them empty, and the summary joins the first two; when a name is
    neither, the computation of the lines and of the summary throws. *)
Theorem owner_lines sunarpData :
  let base := sunarpOwnersBase sunarpData in
  (Forall (λ o, isTextName (owner_nombre o) = true) base →
   ∃ lines,
     sunarpOwnerLines sunarpData = Return lines
     ∧ (length lines ≤ length base)%nat
     ∧ Forall (λ l, nonEmpty l = true) lines
     ∧ sunarpOwnerSummary sunarpData = Return (join [32; 183; 32] (take 2 lines)))
  ∧ (Exists (λ o, isTextName (owner_nombre o) = false) base →
     sunarpOwnerLines sunarpData = typeError
     ∧ sunarpOwnerSummary sunarpData = typeError).
Proof.
  intros base. unfold sunarpOwnerLines, sunarpOwnerSummary. fold base.
  split.
  - intros Htext.
    destruct (forEachPush_returns ownerLine base) as [pushed Hpushed].
    { eapply Forall_impl; [exact Htext|]. intros o Ho.
      pose proof (ownerLine_cases o) as Hcase. by rewrite Ho in Hcase. }
    rewrite Hpushed. simpl. eexists. split; [done|]. split; [|split; [|done]].
    + etransitivity; [apply length_filter|].
      by eapply forEachPush_length.
    + apply Forall_forall. by intros l [? _]%list_elem_of_filter.
  - intros Hbad.
    assert (Hthrow : forEachPush ownerLine base = typeError).
    { apply forEachPush_throws.
      - apply Forall_forall. intros o _.
        pose proof (ownerLine_cases o) as Hcase.
        destruct (isTextName (owner_nombre o)); eauto.
      - eapply Exists_impl; [exact Hbad|]. intros o Ho.
        pose proof (ownerLine_cases o) as Hcase. by rewrite Ho in Hcase. }
    by rewrite Hthrow.
Qed.

(** The owner [parseSunarp] makes of a payload entry that only has a
    name. *)
Lemma ownerOfRaw_name_only v :
  truthy v = true →
  ownerOfRaw (JObj [(str "nombre", v)])
  = Return (Some {| owner_nombre := v; owner_documento := Some [];
                    owner_porcentaje := Some (JStr []);
                    owner_condicion := Some (JStr []);
                    owner_reniec := None |}).
Proof.
  intros Hv. unfold ownerOfRaw.
  change ((JObj [(str "nombre", v)])?."nombre")%js with v.
  change (trimmedText _) with (Return (@nil N)).
  cbn [mbind completion_bind]. unfold jsOr.
  repeat (rewrite Hv; cbn [truthy nonEmpty orb]). reflexivity.
Qed.

(** X18. [parseSunarp] takes the name of an owner from the payload as
    it is: for a payload whose owner has a truthy name that is not a
    string (a number, say) it returns that owner, and the lines of the
    owners then throw instead of showing it. *)
Theorem untyped_owner_name_breaks_lines raw v :
  truthy v = true →
  isTextName v = false →
  ∃ d,
    parseSunarp raw
      (JObj [(str "propietarios", JArr [JObj [(str "nombre", v)]])])
    = Return (Some d)
    ∧ owner_nombre <$> sunarp_propietarios d = [v]
    ∧ sunarpOwnerLines (Some d) = typeError
    ∧ sunarpOwnerSummary (Some d) = typeError.
Proof.
  intros Hv Htext. unfold parseSunarp.
  change (datosOf (JObj [(str "propietarios", JArr [JObj [(str "nombre", v)]])]))
    with (JObj [(str "propietarios", JArr [JObj [(str "nombre", v)]])]).
  cbv zeta.
  change ((JObj [(str "propietarios", JArr [JObj [(str "nombre", v)]])])
            ?."propietarios")%js with (JArr [JObj [(str "nombre", v)]]).
  cbn [jsOr truthy forEachPush]. rewrite (ownerOfRaw_name_only v Hv).
  eexists. split; [reflexivity|]. split; [reflexivity|].
  unfold sunarpOwnerLines, sunarpOwnerSummary, sunarpOwnersBase.
  cbn [sunarp_coincidencias sunarp_propietarios nonEmpty app forEachPush].
  assert (Hline : ∀ doc por con ren,
            ownerLine {| owner_nombre := v; owner_documento := doc;
                         owner_porcentaje := por; owner_condicion := con;
                         owner_reniec := ren |} = typeError).
  { intros. unfold ownerLine, trimmedName. cbn [owner_nombre].
    by destruct v. }
  rewrite Hline. done.
Qed.

End OwnerLines.

Section Dates.
Context `{Locale}.

Lemma digit_facts c :
  isDigit c = true →
  isSpace c = false ∧ isDateSep c = false
  ∧ (c = 48 ∨ c = 49 ∨ c = 50 ∨ c = 51 ∨ c = 52 ∨ c = 53 ∨ c = 54 ∨ c = 55
     ∨ c = 56 ∨ c = 57).
Proof.
  unfold isDigit, inRange. intros [?%N.leb_le ?%N.leb_le]%andb_true_iff.
  assert (Hc : c = 48 ∨ c = 49 ∨ c = 50 ∨ c = 51 ∨ c = 52 ∨ c = 53 ∨ c = 54
               ∨ c = 55 ∨ c = 56 ∨ c = 57) by lia.
  split; [|split; [|done]];
    decompose [or] Hc; subst; reflexivity.
Qed.

Lemma takeWhile_all {A} (p : A → bool) (l : list A) :
  Forall (λ x, p x = true) l → takeWhile p l = l.
Proof. induction 1 as [|x l Hx _ IH]; simpl; [done|]. by rewrite Hx, IH. Qed.

(** [parseInt] of a run of digits is the integer they denote. *)
Lemma parseInt10_digits c rest :
  Forall (λ x, isDigit x = true) (c :: rest) →
  parseInt10 (c :: rest) = Some (digitsValue (c :: rest)).
Proof.
  intros Hall. pose proof Hall as Hall'.
  apply Forall_cons in Hall' as [Hc Hrest].
  unfold parseInt10.
  assert (Hdrop : dropSpaces (c :: rest) = c :: rest).
  { simpl. by rewrite (proj1 (digit_facts c Hc)). }
  rewrite Hdrop.
  destruct (digit_facts c Hc) as (_ & _ & Hcases).
  assert (Hsign : match c :: rest with
                  | 45 :: r => (true, r)
                  | 43 :: r => (false, r)
                  | _ => (false, c :: rest)
                  end = (false, c :: rest)).
  { decompose [or] Hcases; subst; reflexivity. }
  rewrite Hsign. rewrite (takeWhile_all isDigit (c :: rest) Hall). reflexivity.
Qed.

Lemma splitDate_digits ds rest cur :
  Forall (λ x, isDigit x = true) ds →
  splitDate (ds ++ rest) cur = splitDate rest (rev ds ++ cur).
Proof.
  intros Hall. revert cur. induction Hall as [|c ds Hc _ IH]; intros cur; [done|].
  simpl. rewrite (proj1 (proj2 (digit_facts c Hc))).
  rewrite IH. by rewrite <- app_assoc.
Qed.

Lemma splitDate_count s cur :
  length (splitDate s cur) = S (length (filter (λ c, isDateSep c = true) s)).
Proof.
  revert cur. induction s as [|c s IH]; intros cur; [done|]. simpl.
  destruct (isDateSep c) eqn:Hc.
  - rewrite filter_cons_True by done. simpl. by rewrite IH.
  - rewrite filter_cons_False by (by rewrite Hc). apply IH.
Qed.

(** X19. A date token DD/MM/YYYY, as the normalisers take them from the
    raw text, is read as day, month and year and shown through the
    locale of the device, unless one of the three is zero: then the token
    is shown as it is. *)
Theorem date_token_display (s : jsstring) :
  dateAtHead s = true →
  let token := take 10 s in
  let d := digitsValue (take 2 token) in
  let m := digitsValue (take 2 (drop 3 token)) in
  let y := digitsValue (drop 6 token) in
  parseDate (Some token)
  = (if (d =? 0)%Z || (m =? 0)%Z || (y =? 0)%Z then None
     else Some {| date_d := d; date_m := m; date_y := y |})
  ∧ formatDisplayDate (Some token)
    = (if (d =? 0)%Z || (m =? 0)%Z || (y =? 0)%Z then token
       else toLocaleDateString {| date_d := d; date_m := m; date_y := y |}).
Proof.
  intros Hdate.
  destruct s as [|d1 [|d2 [|s1 [|m1 [|m2 [|s2 [|y1 [|y2 [|y3 [|y4 rest]]]]]]]]]];
    try discriminate Hdate.
  unfold dateAtHead in Hdate.
  rewrite !andb_true_iff in Hdate.
  destruct Hdate
    as (((((((((Hd1 & Hd2) & Hs1) & Hm1) & Hm2) & Hs2) & Hy1) & Hy2) & Hy3) & Hy4).
  apply N.eqb_eq in Hs1, Hs2. subst s1 s2.
  cbn [take drop].
  set (dd := [d1; d2]). set (mm := [m1; m2]). set (yy := [y1; y2; y3; y4]).
  assert (Hdd : Forall (λ x, isDigit x = true) dd)
    by (repeat constructor; assumption).
  assert (Hmm : Forall (λ x, isDigit x = true) mm)
    by (repeat constructor; assumption).
  assert (Hyy : Forall (λ x, isDigit x = true) yy)
    by (repeat constructor; assumption).
  assert (Hsplit : splitDate (dd ++ 47 :: mm ++ 47 :: yy) [] = [dd; mm; yy]).
  { rewrite (splitDate_digits dd) by done.
    cbn [splitDate isDateSep]. change (isDateSep 47) with true. cbn iota.
    rewrite (splitDate_digits mm) by done.
    cbn [splitDate]. change (isDateSep 47) with true. cbn iota.
    rewrite <- (app_nil_r yy) at 1. rewrite (splitDate_digits yy) by done.
    simpl. reflexivity. }
  assert (Hparse : parseDate (Some (dd ++ 47 :: mm ++ 47 :: yy))
                   = (if (digitsValue dd =? 0)%Z || (digitsValue mm =? 0)%Z
                         || (digitsValue yy =? 0)%Z then None
                      else Some {| date_d := digitsValue dd;
                                   date_m := digitsValue mm;
                                   date_y := digitsValue yy |})).
  { unfold parseDate. rewrite Hsplit.
    change (nonEmpty (dd ++ 47 :: mm ++ 47 :: yy)) with true.
    cbn [negb map]. unfold dd, mm, yy.
    rewrite !parseInt10_digits by done. fold dd mm yy.
    cbn [isNumber default].
    destruct (digitsValue dd =? 0)%Z, (digitsValue mm =? 0)%Z,
      (digitsValue yy =? 0)%Z; reflexivity. }
  change (parseDate (Some (dd ++ 47 :: mm ++ 47 :: yy))
          = (if (digitsValue dd =? 0)%Z || (digitsValue mm =? 0)%Z
                || (digitsValue yy =? 0)%Z then None
             else Some {| date_d := digitsValue dd; date_m := digitsValue mm;
                          date_y := digitsValue yy |})
          ∧ formatDisplayDate (Some (dd ++ 47 :: mm ++ 47 :: yy))
            = (if (digitsValue dd =? 0)%Z || (digitsValue mm =? 0)%Z
                  || (digitsValue yy =? 0)%Z then dd ++ 47 :: mm ++ 47 :: yy
               else toLocaleDateString
                      {| date_d := digitsValue dd; date_m := digitsValue mm;
                         date_y := digitsValue yy |})).
  split; [exact Hparse|].
  unfold formatDisplayDate. rewrite Hparse.
  change (nonEmpty (dd ++ 47 :: mm ++ 47 :: yy)) with true. cbn [negb].
  by destruct (_ || _).
Qed.

(** X20. A date that is not written with exactly two separators ([/] or
    [-]) is never dropped or altered: it is shown as it is. Nothing is
    shown for an absent or empty date. *)
Theorem unparsable_date_shown_as_is (s : jsstring) :
  formatDisplayDate None = []
  ∧ formatDisplayDate (Some []) = []
  ∧ (nonEmpty s = true →
     length (filter (λ c, isDateSep c = true) s) ≠ 2%nat →
     parseDate (Some s) = None ∧ formatDisplayDate (Some s) = s).
Proof.
  split; [done|]. split; [done|]. intros Hs Hseps.
  assert (Hparse : parseDate (Some s) = None).
  { unfold parseDate. rewrite Hs. simpl.
    pose proof (splitDate_count s []) as Hlen.
    destruct (splitDate s []) as [|p1 [|p2 [|p3 [|p4 ps]]]]; simpl in *;
      try done. lia. }
  split; [done|]. unfold formatDisplayDate. by rewrite Hparse, Hs.
Qed.

End Dates.

Section MoreNormalisers.
Context `{Engine}.


Lemma findIndex_lookup {A} (p : A → bool) (l : list A) i :
  findIndex p l = Some i → ∃ x, l !! i = Some x ∧ p x = true ∧ x ∈ l.
Proof.
  revert i. induction l as [|y l IH]; intros i; simpl; [done|].
  destruct (p y) eqn:Hy.
  - intros [= <-]. exists y. split; [done|]. split; [done|]. by left.
  - destruct (findIndex p l) as [j|]; simpl; [|done]. intros [= <-].
    destruct (IH j eq_refl) as (x & ? & ? & ?). exists x.
    split; [done|]. split; [done|]. by right.
Qed.

Lemma splitChar_nonempty sep s cur : splitChar sep s cur ≠ [].
Proof.
  revert cur. induction s as [|c s IH]; intros cur; simpl; [done|].
  destruct (c =? sep); [done | apply IH].
Qed.

(** Splitting at a character and joining with it gives the text back. *)
Lemma join_splitChar sep s cur :
  join [sep] (splitChar sep s cur) = rev cur ++ s.
Proof.
  revert cur. induction s as [|c s IH]; intros cur; simpl.
  - by rewrite app_nil_r.
  - destruct (c =? sep) eqn:Hc.
    + apply N.eqb_eq in Hc as ->.
      pose proof (splitChar_nonempty sep s []) as Hne.
      specialize (IH []). simpl in IH.
      destruct (splitChar sep s []) as [|p ps]; [done|].
      change (join [sep] (rev cur :: p :: ps))
        with (rev cur ++ [sep] ++ join [sep] (p :: ps)).
      by rewrite IH.
    + rewrite IH. simpl. by rewrite <- app_assoc.
Qed.

Lemma splitChar_no_sep sep s cur :
  Forall (λ c, (c =? sep) = false) s → splitChar sep s cur = [rev cur ++ s].
Proof.
  intros Hall. revert cur. induction Hall as [|c s Hc _ IH]; intros cur; simpl.
  - by rewrite app_nil_r.
  - rewrite Hc, IH. simpl. by rewrite <- app_assoc.
Qed.

Lemma splitChar_first sep a b cur :
  Forall (λ c, (c =? sep) = false) a →
  splitChar sep (a ++ sep :: b) cur = (rev cur ++ a) :: splitChar sep b [].
Proof.
  intros Hall. revert cur. induction Hall as [|c s Hc _ IH]; intros cur; simpl.
  - by rewrite N.eqb_refl, app_nil_r.
  - rewrite Hc, IH. simpl. by rewrite <- app_assoc.
Qed.

(** X22. The "información actualizada" of the insurance text is all
    that follows the first colon of its line, trimmed, later colons
    included (a time of day is kept whole); a line without colon, or with
    nothing after it, gives none. *)
Theorem soat_info_after_first_colon lines infoIdx l :
  findIndex (λ l, includes (toLowerCase l) INFO_ACTUALIZADA) lines = Some infoIdx →
  lines !! infoIdx = Some l →
  (∀ a b, l = a ++ 58 :: b → Forall (λ c, (c =? 58) = false) a →
     soatInfoActualizada lines = orUndefined (trim b))
  ∧ (Forall (λ c, (c =? 58) = false) l → soatInfoActualizada lines = None).
Proof.
  intros Hidx Hl. unfold soatInfoActualizada. rewrite Hidx, Hl. split.
  - intros a b -> Ha. rewrite splitChar_first by done. simpl.
    change (str ":") with [58]. by rewrite join_splitChar.
  - intros Hnone. rewrite splitChar_no_sep by done. reflexivity.
Qed.

Lemma soatRow_in lines row : soatRow lines = Some row → row ∈ lines.
Proof.
  unfold soatRow.
  destruct (findIndex _ lines) as [headerIdx|].
  - destruct (find (hasColumns 5) (drop (S headerIdx) lines)) as [r|] eqn:Hr.
    + destruct (present (Some r)).
      * intros [= <-]. apply find_some in Hr as [Hin _].
        apply list_elem_of_In in Hin.
        rewrite <- (take_drop (S headerIdx) lines). apply elem_of_app. by right.
      * intros Hf. apply find_some in Hf as [Hin _]. by apply list_elem_of_In.
    + simpl. intros Hf. apply find_some in Hf as [Hin _]. by apply list_elem_of_In.
  - simpl. intros Hf. apply find_some in Hf as [Hin _]. by apply list_elem_of_In.
Qed.

(** X23. The fields of an insurance record are the first eight columns
    of one line of the raw text, in their order; none of them is empty,
    and further columns are ignored. *)
Theorem parseSoat_fields raw d :
  parseSoat (JStr raw) = Return (Some d) →
  ∃ row extra,
    row ∈ trimmedLines raw
    ∧ tabTokens row
      = [soat_aseguradora d; soat_clase d; soat_uso d; soat_accidentes d;
         soat_poliza d; soat_certificado d; soat_inicio d; soat_fin d]
        ++ extra
    ∧ Forall (λ f, nonEmpty f = true)
        [soat_aseguradora d; soat_clase d; soat_uso d; soat_accidentes d;
         soat_poliza d; soat_certificado d; soat_inicio d; soat_fin d]
    ∧ soat_infoActualizada d = soatInfoActualizada (trimmedLines raw).
Proof.
  unfold parseSoat. simpl.
  destruct (soatRow (trimmedLines raw)) as [row|] eqn:Hrow; [|done].
  destruct (negb (nonEmpty row)); [done|].
  destruct (tabTokens row) as [|? [|? [|? [|? [|? [|? [|? [|? extra]]]]]]]] eqn:Ht;
    try done.
  intros [= <-]. exists row, extra. simpl.
  split; [by apply soatRow_in|]. split; [done|]. split; [|done].
  assert (Hall : Forall (λ f, nonEmpty f = true) (tabTokens row)).
  { unfold tabTokens. apply Forall_forall.
    by intros f [? _]%list_elem_of_filter. }
  rewrite Ht in Hall.
  repeat (apply Forall_cons in Hall as [? Hall]).
  repeat constructor; assumption.
Qed.

End MoreNormalisers.

Section Usage.

(** X24. A refresh of the usage always ends with the loading flag down,
    also when the fetch of the snapshot fails; it rejects exactly when
    that fetch does, and then the snapshot held before is kept. It never
    touches the state of a service, and without a signed-in user it does
    nothing. *)
Theorem refreshUsage_settles scr env st :
  (sessionUser scr = None → refreshUsage scr env = done [])
  ∧ (∀ user, sessionUser scr = Some user →
     let after := runTrace st (trace (refreshUsage scr env)) in
     st_usageLoading after = false
     ∧ st_serviceState after = st_serviceState st
     ∧ (rejected (refreshUsage scr env) = true
        ↔ is_resolved (getUsageSnapshot env user) = None)
     ∧ (is_resolved (getUsageSnapshot env user) = None →
        st_usage after = st_usage st)
     ∧ (∀ snapshot, getUsageSnapshot env user = Resolved snapshot →
        st_usage after = Some snapshot)).
Proof.
  unfold refreshUsage. split.
  - by intros ->.
  - intros user ->. destruct (getUsageSnapshot env user) as [snapshot|m]; simpl.
    + repeat split; try done. by intros ? [= <-].
    + repeat split; done.
Qed.

End Usage.

(** * The further properties at concrete inputs *)

Lemma handleConsult_checks_witness :
  @handleConsult asciiEngine exhaustedShortScreen (fun _ => offlineEnv)
  = ([PLACA_INCOMPLETA], [])
  ∧ (@handleConsult asciiEngine freshScreen (fun _ => sutranDown)).2.*1
    = [str "soat"; str "itv"; str "satlima"; str "satcallao"; str "sutran";
       str "sunarp"].
Proof.
  destruct (handleConsult_checks (H:=asciiEngine) exhaustedShortScreen
              (fun _ => offlineEnv)) as (incomplete & _).
  destruct (handleConsult_checks (H:=asciiEngine) freshScreen
              (fun _ => sutranDown)) as (_ & _ & complete).
  split.
  - apply incomplete. by vm_compute.
  - by destruct (complete eq_refl eq_refl) as (_ & Hkeys & _).
Defined.

Lemma handlePersonConsult_checks_witness :
  @handlePersonConsult asciiEngine shortScreen (fun _ => offlineEnv)
  = ([DOCUMENTO_INCOMPLETO], [])
  ∧ (@handlePersonConsult asciiEngine freshScreen (fun _ => sutranDown)).2.*1
    = [str "licencia"; str "dniperu"; str "redam"].
Proof.
  destruct (handlePersonConsult_checks (H:=asciiEngine) shortScreen
              (fun _ => offlineEnv)) as (incomplete & _).
  destruct (handlePersonConsult_checks (H:=asciiEngine) freshScreen
              (fun _ => sutranDown)) as (_ & _ & complete).
  split.
  - apply incomplete. by vm_compute.
  - by destruct (complete eq_refl eq_refl) as (_ & Hkeys & _).
Defined.

Lemma fetchService_isolated_witness :
  st_serviceState
    (runTrace emptyStore
       (trace (@fetchService asciiEngine freshScreen sutranDown (str "soat")
                 None forceTrue))) !! str "itv"
  = Some emptyState.
Proof.
  rewrite (fetchService_isolated (H:=asciiEngine) freshScreen sutranDown
             (str "soat") None forceTrue emptyStore (str "itv"));
    [reflexivity | by vm_compute].
Defined.

Lemma fetchService_settles_witness :
  ∃ s,
    st_serviceState
      (runTrace emptyStore
         (trace (@fetchService asciiEngine freshScreen offlineEnv (str "soat")
                   None forceTrue))) !! str "soat" = Some s
    ∧ loading s = false
    ∧ query s = Some (str "ABC123")
    ∧ error s = Some (str "Network request failed")
    ∧ data s = JNull.
Proof.
  destruct (fetchService_settles (H:=asciiEngine) freshScreen offlineEnv
              (str "soat") None forceTrue _ emptyStore
              eq_refl eq_refl eq_refl eq_refl eq_refl)
    as (s & Hs & Hload & Hquery & _ & Herr & Hdata & _).
  exists s. repeat split; assumption.
Defined.

Lemma fetchService_rejects_only_on_billing_witness :
  ∃ user, sessionUser freshScreen = Some user
    ∧ ((∃ entry,
          In entry (ledgerWrites
                      (trace (@fetchService asciiEngine freshScreen ledgerDown
                                (str "soat") None forceTrue)))
          ∧ is_resolved (registerConsulta ledgerDown entry) = None)
       ∨ is_resolved (getUsageSnapshot ledgerDown user) = None).
Proof.
  apply (fetchService_rejects_only_on_billing (H:=asciiEngine) freshScreen
           ledgerDown (str "soat") None forceTrue).
  reflexivity.
Defined.

Lemma ledger_agrees_with_state_witness :
  ∃ entry s,
    In entry (ledgerWrites
                (trace (@fetchService asciiEngine freshScreen offlineEnv
                          (str "soat") None forceTrue)))
    ∧ st_serviceState
        (runTrace emptyStore
           (trace (@fetchService asciiEngine freshScreen offlineEnv (str "soat")
                     None forceTrue))) !! str "soat" = Some s
    ∧ errorCode entry = error s
    ∧ (success entry = true ↔ error s = None).
Proof.
  assert (Hin : {entry | In entry
                  (ledgerWrites
                     (trace (@fetchService asciiEngine freshScreen offlineEnv
                               (str "soat") None forceTrue)))}).
  { eexists. vm_compute. left. reflexivity. }
  destruct Hin as [entry Hin].
  destruct (ledger_agrees_with_state (H:=asciiEngine) freshScreen offlineEnv
              (str "soat") None forceTrue _ emptyStore entry
              eq_refl eq_refl eq_refl eq_refl eq_refl Hin)
    as (s & Hs & Hcode & Hsuccess & _).
  exists entry, s. repeat split; try assumption; apply Hsuccess.
Defined.

Lemma only_success_is_cached_witness :
  ∃ more,
    transportCalls
      (trace (@fetchService asciiEngine failedScreen offlineEnv (str "soat")
                None forceFalse))
    = {| req_endpoint := str "http://localhost:8000/consulta-soat";
         req_field := str "placa"; req_value := str "ABC123" |} :: more.
Proof.
  exact (only_success_is_cached (H:=asciiEngine) failedScreen offlineEnv
           (str "soat") None forceFalse _ _ eq_refl eq_refl eq_refl eq_refl
           eq_refl (or_introl eq_refl)).
Defined.

Lemma second_issue_is_served_from_cache_witness :
  transportCalls
    (trace (@fetchService asciiEngine
              (rerender freshScreen
                 (runTrace emptyStore
                    (trace (@fetchService asciiEngine freshScreen sutranDown
                              (str "soat") None forceTrue))))
              offlineEnv (str "soat") None forceFalse)) = []
  ∧ ledgerWrites
      (trace (@fetchService asciiEngine
                (rerender freshScreen
                   (runTrace emptyStore
                      (trace (@fetchService asciiEngine freshScreen sutranDown
                                (str "soat") None forceTrue))))
                offlineEnv (str "soat") None forceFalse)) = []
  ∧ stateUpdates
      (trace (@fetchService asciiEngine
                (rerender freshScreen
                   (runTrace emptyStore
                      (trace (@fetchService asciiEngine freshScreen sutranDown
                                (str "soat") None forceTrue))))
                offlineEnv (str "soat") None forceFalse)) = [].
Proof.
  apply (second_issue_is_served_from_cache (H:=asciiEngine) freshScreen
           sutranDown (str "soat") None forceTrue _ emptyStore offlineEnv
           forceFalse eq_refl eq_refl eq_refl eq_refl eq_refl);
    [by eexists | reflexivity | reflexivity].
Defined.

Lemma transport_calls_of_issue_witness :
  transportCalls
    (trace (@fetchService asciiEngine freshScreen sutranDown (str "soat")
              None forceTrue))
  = [{| req_endpoint := str "http://localhost:8000/consulta-soat";
        req_field := str "placa"; req_value := str "ABC123" |}].
Proof.
  destruct (transport_calls_of_issue (H:=asciiEngine) freshScreen sutranDown
              (str "soat") None forceTrue _
              eq_refl eq_refl eq_refl eq_refl eq_refl) as (_ & Hone & _).
  apply Hone. by vm_compute.
Defined.

Lemma parseSunarp_owners_named_witness :
  ∃ d, @parseSunarp asciiEngine (JStr []) sunarpOnlyDocument = Return (Some d)
       ∧ Forall named (sunarp_propietarios d)
       ∧ owner_nombre <$> sunarp_propietarios d = [JStr (str "Propietario")].
Proof.
  eexists. split; [reflexivity|]. split; [|reflexivity].
  eapply (parseSunarp_owners_named (H:=asciiEngine) (JStr []) sunarpOnlyDocument).
  reflexivity.
Defined.

Lemma parseSunarp_text_owners_witness :
  ∃ d, @parseSunarp asciiEngine (JStr sunarpFourLines) (JObj []) = Return (Some d)
       ∧ (length (sunarp_propietarios d) ≤ 3)%nat
       ∧ owner_nombre <$> sunarp_propietarios d
         = [JStr (str "ANA"); JStr (str "LUIS"); JStr (str "ROSA")].
Proof.
  eexists. split; [reflexivity|]. split; [|reflexivity].
  eapply (parseSunarp_text_owners (H:=asciiEngine) (JStr sunarpFourLines)
            (JObj [])); reflexivity.
Defined.

Lemma owner_lines_witness :
  @sunarpOwnerLines asciiEngine (Some threeOwners)
  = Return [str "Ana Lopez (12345678)"; str "Luis Diaz (23456789)";
            str "Rosa Cruz (34567890)"]
  ∧ ∃ lines, @sunarpOwnerSummary asciiEngine (Some threeOwners)
             = Return (join [32; 183; 32] (take 2 lines)).
Proof.
  destruct (owner_lines (H:=asciiEngine) (Some threeOwners)) as [safe _].
  destruct safe as (lines & Hlines & _ & _ & Hsummary).
  { repeat constructor. }
  split; [reflexivity | by exists lines].
Defined.

Lemma untyped_owner_name_breaks_lines_witness :
  ∃ d,
    @parseSunarp asciiEngine (JStr [])
      (JObj [(str "propietarios",
              JArr [JObj [(str "nombre", JNum (str "123"))]])])
    = Return (Some d)
    ∧ @sunarpOwnerLines asciiEngine (Some d) = Throw (Some (str "TypeError")).
Proof.
  destruct (untyped_owner_name_breaks_lines (H:=asciiEngine) (JStr [])
              (JNum (str "123")) eq_refl eq_refl)
    as (d & Hd & _ & Hlines & _).
  by exists d.
Defined.

Lemma date_token_display_witness :
  @formatDisplayDate plainLocale (Some (str "10/01/2024")) = str "10/1/2024"
  ∧ @formatDisplayDate plainLocale (Some (str "00/01/2024")) = str "00/01/2024".
Proof.
  destruct (date_token_display (H:=plainLocale) (str "10/01/2024 hasta") eq_refl)
    as [_ Hshown].
  destruct (date_token_display (H:=plainLocale) (str "00/01/2024") eq_refl)
    as [_ Hkept].
  split; [exact Hshown | exact Hkept].
Defined.

Lemma unparsable_date_shown_as_is_witness :
  @formatDisplayDate plainLocale (Some (str "Enero 2024")) = str "Enero 2024".
Proof.
  destruct (unparsable_date_shown_as_is (H:=plainLocale) (str "Enero 2024"))
    as (_ & _ & Hkept).
  apply Hkept; [reflexivity | by vm_compute].
Defined.


Lemma refreshUsage_settles_witness :
  st_usageLoading
    (runTrace {| st_serviceState := ∅; st_usage := Some (credits 3);
                 st_usageLoading := true |}
              (trace (refreshUsage freshScreen ledgerDown))) = false
  ∧ st_usage
      (runTrace {| st_serviceState := ∅; st_usage := Some (credits 3);
                   st_usageLoading := true |}
                (trace (refreshUsage freshScreen ledgerDown)))
    = Some (credits 3).
Proof.
  destruct (refreshUsage_settles freshScreen ledgerDown
              {| st_serviceState := ∅; st_usage := Some (credits 3);
                 st_usageLoading := true |}) as (_ & signed).
  destruct (signed (str "user-1") eq_refl) as (Hloading & _ & _ & Hkept & _).
  split; [exact Hloading | exact (Hkept eq_refl)].
Defined.

Lemma parseSoat_fields_witness :
  ∃ d row extra,
    @parseSoat asciiEngine (JStr soatText) = Return (Some d)
    ∧ row ∈ trimmedLines soatText
    ∧ tabTokens row
      = [soat_aseguradora d; soat_clase d; soat_uso d; soat_accidentes d;
         soat_poliza d; soat_certificado d; soat_inicio d; soat_fin d]
        ++ extra
    ∧ soat_aseguradora d = str "RIMAC" ∧ soat_fin d = str "01/01/2025".
Proof.
  eexists.
  destruct (parseSoat_fields (H:=asciiEngine) soatText _ eq_refl)
    as (row & extra & Hin & Hcols & _).
  exists row, extra. repeat split; try assumption; reflexivity.
Defined.

Lemma soat_info_after_first_colon_witness :
  @soatInfoActualizada asciiEngine (trimmedLines soatText)
  = Some (str "10/10/2024 12:30").
Proof.
  destruct (soat_info_after_first_colon (H:=asciiEngine) (trimmedLines soatText)
              0 (str "Informaci" ++ [243] ++ str "n actualizada: 10/10/2024 12:30")
              eq_refl eq_refl) as [Hafter _].
  rewrite (Hafter (str "Informaci" ++ [243] ++ str "n actualizada")
             (str " 10/10/2024 12:30") eq_refl) by by repeat constructor.
  reflexivity.
Defined.
